(** * Chef's Fridge Recipe Generator: the wizard, the deduplicated image
      store and the request orchestration of [app.py]

    A shallow embedding of the Streamlit script [src/app.py] (Gemini
    backend; [src/openai.py] is the single-page OpenAI variant whose
    [identify_items] and [generate_recipe] have the same bodies).

    Conventions of the embedding.
    - A Python [str] is a [string] whose characters are the code points
      0..255 (Latin-1 text).  [isspace], [strip], [lower], [split] and
      [join] below follow Python's behaviour on that range.
    - [st.session_state] has the four keys set by [init_session_state];
      it is the record [session_state].
    - One execution of the script (one Streamlit run) is one step.  The
      widget values of a run are its inputs; [st.rerun()] ends the run.
    - The external services (JPEG encoder, MD5, base64, the generative
      model, FPDF's renderer) are the fields of the class [Backend]; the
      model is called through an explicit world. *)

From Stdlib Require Import Ascii String DecimalString.
From Stdlib Require Import DecimalNat DecimalFacts.
From stdpp Require Import base decidable list strings sets gmap.

Local Open Scope string_scope.
Local Open Scope list_scope.

(** ** Python string primitives *)

Module PyStr.

(** [str.isspace] on one character, code points below 256. *)
Definition isspace (c : ascii) : bool :=
  let n := nat_of_ascii c in
  (((9 <=? n) && (n <=? 13)) || ((28 <=? n) && (n <=? 32))
   || (n =? 133) || (n =? 160))%nat.

(** The bool of a string: only the empty string is falsy. *)
Definition truthy (s : string) : bool :=
  match s with
  | EmptyString => false
  | String _ _ => true
  end.

(** [s.lstrip()] *)
Fixpoint lstrip (s : string) : string :=
  match s with
  | EmptyString => EmptyString
  | String c s' => if isspace c then lstrip s' else s
  end.

(** [s.rstrip()] *)
Fixpoint rstrip (s : string) : string :=
  match s with
  | EmptyString => EmptyString
  | String c s' =>
      let r := rstrip s' in
      if negb (truthy r) && isspace c then EmptyString else String c r
  end.

(** [s.strip()] *)
Definition strip (s : string) : string := lstrip (rstrip s).

(** [s.split(sep)] for a one-character separator: every occurrence
    splits, empty segments are kept, and the result is never empty. *)
Fixpoint split (sep : ascii) (s : string) : list string :=
  match s with
  | EmptyString => [EmptyString]
  | String c s' =>
      if Ascii.eqb c sep then EmptyString :: split sep s'
      else match split sep s' with
           | [] => [String c EmptyString]
           | seg :: segs => String c seg :: segs
           end
  end.

(** [sep.join(items)] *)
Fixpoint join (sep : string) (items : list string) : string :=
  match items with
  | [] => EmptyString
  | [x] => x
  | x :: rest => x +:+ sep +:+ join sep rest
  end.

(** [str.lower] on one character: A-Z and the Latin-1 capitals
    U+00C0..U+00DE (U+00D7, the multiplication sign, excepted). *)
Definition lower_char (c : ascii) : ascii :=
  let n := nat_of_ascii c in
  if (((65 <=? n) && (n <=? 90))
      || ((192 <=? n) && (n <=? 222) && negb (n =? 215)))%nat
  then ascii_of_nat (n + 32) else c.

(** [s.lower()] *)
Fixpoint lower (s : string) : string :=
  match s with
  | EmptyString => EmptyString
  | String c s' => String (lower_char c) (lower s')
  end.

(** [str(n)] for a natural number. *)
Definition str_of_nat (n : nat) : string :=
  NilZero.string_of_uint (Nat.to_uint n).

(** [sub in s] *)
Fixpoint contains (sub s : string) : bool :=
  String.prefix sub s ||
  match s with
  | EmptyString => false
  | String _ s' => contains sub s'
  end.

Definition comma : ascii := ","%char.
Definition dquote : string := String (ascii_of_nat 34) EmptyString.
Definition newline : ascii := ascii_of_nat 10.

End PyStr.

Import PyStr.

(** ** The external services *)

(** The argument of [model.generate_content]: a text prompt, or an
    instruction with inline image data. *)
Inductive content :=
  | TextPrompt (prompt : string)
  | ImagePrompt (instruction mime_type data : string).

(** What a call of the model gives: a response whose [.text] is read, or
    an exception [e], carried as [str(e)]. *)
Inductive response :=
  | Text (text : string)
  | Raises (e : string).

(** The calls made on the [FPDF] object. *)
Inductive fpdf_call :=
  | add_page
  | set_auto_page_break (auto : bool) (margin : nat)
  | set_font (family : string) (size : nat)
  | cell (w h : nat) (txt : string) (ln : bool) (align : string)
  | multi_cell (w h : nat) (txt : string)
  | ln (h : nat).

Class Backend := {
  (** a PIL image *)
  Image : Type;
  (** the state of the outside world the model's answers depend on *)
  World : Type;
  (** [image.save(buffered, format="JPEG"); buffered.getvalue()] *)
  jpeg_bytes : Image -> string;
  (** [hashlib.md5(data).hexdigest()] *)
  md5_hexdigest : string -> string;
  (** [base64.b64encode(data).decode()] *)
  b64encode : string -> string;
  (** [model.generate_content(request)] *)
  generate_content : content -> World -> response * World;
  (** [pdf.output(dest="S")] after the given calls *)
  fpdf_output : list fpdf_call -> string;
}.

(** ** Session state, outputs and the script monad *)

Inductive page_name :=
  | Home                  (* 'Home' *)
  | Upload_Images         (* 'Upload Images' *)
  | Identify_Ingredients  (* 'Identify Ingredients' *)
  | Generate_Recipe.      (* 'Generate Recipe' *)

Global Instance page_name_eq_dec : EqDecision page_name.
Proof. solve_decision. Defined.

(** What a run shows to the user: the status messages and the rendered
    recipes.  Titles, instructions, image previews and the progress bar
    are not recorded.  The two success messages and the info message
    carry an emoji or a counter and are kept symbolic. *)
Inductive message :=
  | st_error (text : string)
  | st_warning (text : string)
  | st_success_image_added            (* "Image added successfully!" *)
  | st_success_new_images (n : nat)   (* "{n} new image(s) added successfully!" *)
  | st_info_duplicates (n : nat)      (* "{n} duplicate image(s) were not added." *)
  | st_markdown (html : string).

(** How a piece of script ends: it falls through with a value, the page
    function returns early, or [st.rerun()] stops the run. *)
Inductive flow (A : Type) :=
  | Continue (a : A)
  | Return
  | Rerun.
Arguments Continue {A} a.
Arguments Return {A}.
Arguments Rerun {A}.

Inductive image_choice := Upload_Images_option | Take_Pictures_option.

Section App.
Context {B : Backend}.

Record session_state := {
  page : page_name;
  images : list Image;
  ingredients : list string;
  recipes : list string;
}.

Record ctx := {
  ss : session_state;
  world : World;
  log : list message;
}.

Definition script (A : Type) : Type := ctx -> flow A * ctx.

Definition ret {A} (a : A) : script A := fun c => (Continue a, c).

Definition bind {A C} (m : script A) (k : A -> script C) : script C :=
  fun c =>
    match m c with
    | (Continue a, c') => k a c'
    | (Return, c') => (Return, c')
    | (Rerun, c') => (Rerun, c')
    end.

Definition get_ss : script session_state := fun c => (Continue (ss c), c).

Definition put_ss (s : session_state) : script unit :=
  fun c => (Continue tt, {| ss := s; world := world c; log := log c |}).

(** A message is appended to what the run has shown so far. *)
Definition show (m : message) : script unit :=
  fun c => (Continue tt, {| ss := ss c; world := world c; log := log c ++ [m] |}).

(** One call of the model: the world moves on. *)
Definition call_model (request : content) : script response :=
  fun c =>
    let '(r, w') := generate_content request (world c) in
    (Continue r, {| ss := ss c; world := w'; log := log c |}).

(** [return] in a page function. *)
Definition return_ {A} : script A := fun c => (Return, c).

(** [st.rerun()] *)
Definition st_rerun {A} : script A := fun c => (Rerun, c).

End App.

Declare Scope script_scope.
Delimit Scope script_scope with script.
Notation "'do' x <- m ; k" := (bind m (fun x => k))
  (at level 10, x name, m at level 100, k at level 200) : script_scope.
Notation "'do' ' p <- m ; k" := (bind m (fun p => k))
  (at level 10, p pattern, m at level 100, k at level 200) : script_scope.
Notation "m >> k" := (bind m (fun _ => k))
  (at level 100, k at level 200, right associativity) : script_scope.
Local Open Scope script_scope.

Section Helpers.
Context {B : Backend}.

(** [if cond: body] *)
Definition when (cond : bool) (body : script unit) : script unit :=
  if cond then body else ret tt.

(** A [for] loop that updates local variables [acc]. *)
Fixpoint for_each {A S} (l : list A) (acc : S) (body : S -> A -> script S)
  : script S :=
  match l with
  | [] => ret acc
  | x :: rest => do acc' <- body acc x; for_each rest acc' body
  end.

(** Assignments to the keys of [st.session_state]. *)
Definition set_page (p : page_name) : script unit :=
  do s <- get_ss;
  put_ss {| page := p; images := images s;
            ingredients := ingredients s; recipes := recipes s |}.

Definition set_images (l : list Image) : script unit :=
  do s <- get_ss;
  put_ss {| page := page s; images := l;
            ingredients := ingredients s; recipes := recipes s |}.

Definition set_ingredients (l : list string) : script unit :=
  do s <- get_ss;
  put_ss {| page := page s; images := images s;
            ingredients := l; recipes := recipes s |}.

Definition set_recipes (l : list string) : script unit :=
  do s <- get_ss;
  put_ss {| page := page s; images := images s;
            ingredients := ingredients s; recipes := l |}.

(** The bool of a list: only the empty list is falsy. *)
Definition nonempty {A} (l : list A) : bool :=
  match l with
  | [] => false
  | _ :: _ => true
  end.

(** ** Helper functions of [app.py] *)

Definition image_to_bytes (image : Image) : string := jpeg_bytes image.

Definition image_hash (image : Image) : string :=
  md5_hexdigest (image_to_bytes image).

Fixpoint is_duplicate (new_image : Image) (existing_images : list Image) : bool :=
  let new_hash := image_hash new_image in
  match existing_images with
  | [] => false
  | img :: rest =>
      if String.eqb (image_hash img) new_hash then true
      else is_duplicate new_image rest
  end.

Definition identify_instruction : string :=
  "List all the food items you can see in this fridge image. Provide the list in a comma-separated format.".

Definition identify_items (images : list Image) : script (list string) :=
  do all_items <-
    for_each images [] (fun all_items image =>
      let base64_image := b64encode (image_to_bytes image) in
      do r <- call_model (ImagePrompt identify_instruction "image/jpeg" base64_image);
      match r with
      | Text text =>
          let items := split comma text in
          ret (all_items ++ map strip items)
      | Raises e =>
          show (st_error ("An error occurred while identifying items: " +:+ e)) >>
          ret all_items
      end);
  ret (elements (list_to_set all_items : gset string)).

Definition diet_instruction (diet_preference : string) : string :=
  if negb (String.eqb diet_preference "None")
  then "The recipe should be " +:+ lower diet_preference +:+ "."
  else EmptyString.

Definition cuisine_instruction (cuisine_preference : string) : string :=
  if negb (String.eqb cuisine_preference "Any")
  then "The recipe should be " +:+ cuisine_preference +:+ " cuisine."
  else EmptyString.

Definition recipe_prompt (items : list string)
    (diet_preference cuisine_preference : string) : string :=
  "Create a recipe using these ingredients: " +:+ join ", " items +:+ ". "
  +:+ diet_instruction diet_preference +:+ " "
  +:+ cuisine_instruction cuisine_preference
  +:+ " Provide the recipe name, ingredients with quantities, and step-by-step instructions.".

Definition unable_marker : string :=
  "Unable to generate recipe. Please try again.".

Definition generate_recipe (items : list string)
    (diet_preference cuisine_preference : string) : script string :=
  let prompt := recipe_prompt items diet_preference cuisine_preference in
  do r <- call_model (TextPrompt prompt);
  match r with
  | Text text => ret text
  | Raises e =>
      show (st_error ("An error occurred while generating the recipe: " +:+ e)) >>
      ret unable_marker
  end.

(** The loop [for _ in range(num_recipes)] with its local list. *)
Fixpoint generate_loop (items : list string)
    (diet_preference cuisine_preference : string)
    (n : nat) (recipes : list string) : script (list string) :=
  match n with
  | O => ret recipes
  | S n' =>
      do recipe <- generate_recipe items diet_preference cuisine_preference;
      generate_loop items diet_preference cuisine_preference n' (recipes ++ [recipe])
  end.

Definition generate_multiple_recipes (items : list string)
    (diet_preference cuisine_preference : string) (num_recipes : nat)
  : script (list string) :=
  generate_loop items diet_preference cuisine_preference num_recipes [].

(** [enumerate(l, start)] *)
Fixpoint enumerate {A} (start : nat) (l : list A) : list (nat * A) :=
  match l with
  | [] => []
  | x :: rest => (start, x) :: enumerate (S start) rest
  end.

(** The section of one recipe in the document. *)
Definition pdf_section (entry : nat * string) : list fpdf_call :=
  let '(i, recipe) := entry in
  [cell 200 10 ("Recipe " +:+ str_of_nat i) true "C";
   multi_cell 0 10 recipe;
   ln 10].

(** Every call made on the [FPDF] object before [pdf.output]. *)
Definition pdf_calls (recipes : list string) : list fpdf_call :=
  [add_page; set_auto_page_break true 15; set_font "Arial" 12]
  ++ flat_map pdf_section (enumerate 1 recipes).

(** On Latin-1 text [encode("latin-1", errors="ignore")] keeps every
    character. *)
Definition get_pdf_download_link (recipes : list string) : string :=
  let pdf_output := fpdf_output (pdf_calls recipes) in
  let b64 := b64encode pdf_output in
  "<a href=" +:+ dquote +:+ "data:application/pdf;base64," +:+ b64 +:+ dquote
  +:+ " download=" +:+ dquote +:+ "recipes.pdf" +:+ dquote
  +:+ ">Download PDF File</a>".

End Helpers.

(** ** The pages *)

Section Pages.
Context {B : Backend}.

(** The widget values of one run.  A button is [true] in the run its
    click triggers.  [sidebar_radio] is the page picked in the sidebar
    ([None]: the radio still shows the current page); [text_area] maps
    the text the area is given to the text it returns. *)
Record widgets := {
  sidebar_radio : option page_name;
  start_button : bool;
  image_option : image_choice;
  camera_input : option Image;
  file_uploader : list Image;
  clear_all_images : bool;
  back_to_home : bool;
  to_identify : bool;
  identify_button : bool;
  text_area : string -> string;
  back_to_upload : bool;
  to_generate : bool;
  diet_selectbox : string;
  cuisine_selectbox : string;
  num_recipes_slider : nat;
  generate_button : bool;
  back_to_ingredients : bool;
}.

Definition init_session_state : session_state :=
  {| page := Home; images := []; ingredients := []; recipes := [] |}.

Definition home_page (w : widgets) : script unit :=
  when (start_button w) (set_page Upload_Images >> st_rerun).

(** [if not is_duplicate(new_image, st.session_state.images):
       st.session_state.images.append(new_image)]; the result tells
    whether the image was appended. *)
Definition append_if_new (new_image : Image) : script bool :=
  do s <- get_ss;
  if negb (is_duplicate new_image (images s))
  then set_images (images s ++ [new_image]) >> ret true
  else ret false.

(** The first part of [upload_images_page]: the picture taken or the
    files uploaded are added to the store. *)
Definition upload_images_input (w : widgets) : script unit :=
  match image_option w with
  | Take_Pictures_option =>
      match camera_input w with
      | Some new_image =>
          do added <- append_if_new new_image;
          if added then show st_success_image_added
          else show (st_warning "This image is a duplicate and was not added.")
      | None => ret tt
      end
  | Upload_Images_option =>
      when (nonempty (file_uploader w))
        (do '(new_images, duplicates) <-
           for_each (file_uploader w) (0, 0)
             (fun '(new_images, duplicates) new_image =>
                do added <- append_if_new new_image;
                if added then ret (new_images + 1, duplicates)
                else ret (new_images, duplicates + 1));
         when (0 <? new_images)%nat (show (st_success_new_images new_images)) >>
         when (0 <? duplicates)%nat (show (st_info_duplicates duplicates)))
  end.

Definition upload_images_page (w : widgets) : script unit :=
  upload_images_input w >>
  (do s <- get_ss;
   when (nonempty (images s))
     (when (clear_all_images w) (set_images [] >> st_rerun))) >>
  when (back_to_home w) (set_page Home >> st_rerun) >>
  when (to_identify w)
    (do s <- get_ss;
     if negb (nonempty (images s))
     then show (st_error "Please upload at least one image before proceeding.")
     else set_page Identify_Ingredients >> st_rerun).

(** [[item.strip() for item in ingredients.split('\n') if item.strip()]] *)
Definition edited_ingredients (ingredients : string) : list string :=
  map strip (filter (fun item => truthy (strip item) = true)
                    (split newline ingredients)).

Definition identify_ingredients_page (w : widgets) : script unit :=
  do s <- get_ss;
  if negb (nonempty (images s))
  then show (st_warning "Please upload images of your fridge contents first.") >>
       return_
  else
    when (identify_button w)
      (do identified_items <- identify_items (images s);
       set_ingredients identified_items) >>
    (do s <- get_ss;
     when (nonempty (ingredients s))
       (let ingredients :=
          text_area w (join (String newline EmptyString) (ingredients s)) in
        set_ingredients (edited_ingredients ingredients))) >>
    when (back_to_upload w) (set_page Upload_Images >> st_rerun) >>
    when (to_generate w)
      (do s <- get_ss;
       if negb (nonempty (ingredients s))
       then show (st_error "Please identify ingredients before proceeding.")
       else set_page Generate_Recipe >> st_rerun).

(** The recipe containers of the page, one per recipe. *)
Definition recipe_container (entry : nat * string) : message :=
  let '(i, recipe) := entry in
  st_markdown ("<div class=" +:+ dquote +:+ "recipe-container" +:+ dquote
               +:+ "><h3>Recipe " +:+ str_of_nat i +:+ "</h3>" +:+ recipe
               +:+ "</div>").

Definition generate_recipe_page (w : widgets) : script unit :=
  do s <- get_ss;
  if negb (nonempty (ingredients s))
  then show (st_warning "Please identify ingredients first.") >> return_
  else
    let diet_preference := diet_selectbox w in
    let cuisine_preference := cuisine_selectbox w in
    let num_recipes := num_recipes_slider w in
    when (generate_button w)
      (do recipes <- generate_multiple_recipes (ingredients s) diet_preference
                       cuisine_preference num_recipes;
       set_recipes recipes) >>
    (do s <- get_ss;
     when (nonempty (recipes s))
       (for_each (enumerate 1 (recipes s)) tt
          (fun _ entry => show (recipe_container entry)) >>
        show (st_markdown (get_pdf_download_link (recipes s))))) >>
    when (back_to_ingredients w) (set_page Identify_Ingredients >> st_rerun).

(** [main] after [init_session_state()]; the progress bar and the
    footer show nothing that is recorded. *)
Definition main (w : widgets) : script unit :=
  do s <- get_ss;
  let selected := default (page s) (sidebar_radio w) in
  when (negb (bool_decide (selected = page s)))
    (set_page selected >> st_rerun) >>
  do s <- get_ss;
  match page s with
  | Home => home_page w
  | Upload_Images => upload_images_page w
  | Identify_Ingredients => identify_ingredients_page w
  | Generate_Recipe => generate_recipe_page w
  end.

(** One run of the script on a session: the session and the world after
    it (what was shown is dropped). *)
Definition run_once (w : widgets) (sw : session_state * World)
  : session_state * World :=
  let '(_, c) := main w {| ss := sw.1; world := sw.2; log := [] |} in
  (ss c, world c).

(** A session: the runs of the script, one per widget event, from a
    fresh session. *)
Definition run_session (events : list widgets) (w0 : World)
  : session_state * World :=
  foldl (fun sw w => run_once w sw) (init_session_state, w0) events.

End Pages.

(** ** Auxiliary predicates *)

(** [c in s] for a character. *)
Fixpoint has_char (c : ascii) (s : string) : bool :=
  match s with
  | EmptyString => false
  | String c' s' => Ascii.eqb c' c || has_char c s'
  end.

(** An ingredient as the edit step leaves it: trimmed, not empty, on
    one line. *)
Definition normal_ingredient (x : string) : Prop :=
  strip x = x /\ truthy x = true /\ has_char newline x = false.

(** The outcomes of the model on one request per image, in order, and
    the world after them. *)
Fixpoint vision_trace `{B : Backend} (images : list Image) (w : World)
  : list response * World :=
  match images with
  | [] => ([], w)
  | image :: rest =>
      let '(r, w') :=
        generate_content
          (ImagePrompt identify_instruction "image/jpeg"
                       (b64encode (image_to_bytes image))) w in
      let '(rs, w'') := vision_trace rest w' in
      (r :: rs, w'')
  end.

(** The outcomes of [n] successive calls of the model on one prompt. *)
Fixpoint text_trace `{B : Backend} (prompt : string) (n : nat) (w : World)
  : list response * World :=
  match n with
  | O => ([], w)
  | S n' =>
      let '(r, w') := generate_content (TextPrompt prompt) w in
      let '(rs, w'') := text_trace prompt n' w' in
      (r :: rs, w'')
  end.

(** The items one outcome contributes to [all_items]. *)
Definition items_of (r : response) : list string :=
  match r with
  | Text text => map strip (split comma text)
  | Raises _ => []
  end.

Definition identify_prefix : string :=
  "An error occurred while identifying items: ".

Definition generate_prefix : string :=
  "An error occurred while generating the recipe: ".

(** The diagnostics of the failed outcomes, in order. *)
Definition diagnostics (prefix : string) (rs : list response) : list message :=
  flat_map (fun r => match r with
                     | Text _ => []
                     | Raises e => [st_error (prefix +:+ e)]
                     end) rs.

Definition failed (r : response) : bool :=
  match r with
  | Text _ => false
  | Raises _ => true
  end.

(** The entry of the recipe list one outcome gives. *)
Definition slot (r : response) : string :=
  match r with
  | Text text => text
  | Raises _ => unable_marker
  end.

(** The session after a piece of script, however it ends: from a
    session in [P], it is in [Q] with the value it gives when the script
    falls through, and in [E] when the script returns or reruns. *)
Definition triple `{B : Backend} {A} (P : session_state -> Prop) (m : script A)
    (Q : A -> session_state -> Prop) (E : session_state -> Prop) : Prop :=
  forall c, P (ss c) ->
    match m c with
    | (Continue a, c') => Q a (ss c')
    | (Return, c') => E (ss c')
    | (Rerun, c') => E (ss c')
    end.

(** No two images of the store have the same fingerprint. *)
Definition store_distinct `{B : Backend} (s : session_state) : Prop :=
  NoDup (map image_hash (images s)).

(** Every ingredient of the session is as the edit step leaves it. *)
Definition ingredients_normal `{B : Backend} (s : session_state) : Prop :=
  Forall normal_ingredient (ingredients s).

Definition session_ok `{B : Backend} (s : session_state) : Prop :=
  store_distinct s /\ ingredients_normal s.

(** A backend that also records, in order, every request the model is
    sent. *)
Definition recording (B : Backend) : Backend := {|
  Image := @Image B;
  World := @World B * list content;
  jpeg_bytes := @jpeg_bytes B;
  md5_hexdigest := @md5_hexdigest B;
  b64encode := @b64encode B;
  generate_content := fun request wl =>
    let '(r, w') := @generate_content B request wl.1 in
    (r, (w', wl.2 ++ [request]));
  fpdf_output := @fpdf_output B;
|}.

(** The requests recorded so far. *)
Definition requests {B : Backend} (c : @ctx (recording B)) : list content :=
  (world c).2.

(** The request [identify_items] sends for one image. *)
Definition vision_request `{B : Backend} (image : Image) : content :=
  ImagePrompt identify_instruction "image/jpeg" (b64encode (image_to_bytes image)).

(** ** A small backend to run the script on

    Images are numbered; two numbers with the same last digit encode to
    the same bytes.  The world is the list of the outcomes the model
    will give, in order. *)
Definition demo_generate_content (request : content) (w : list response)
  : response * list response :=
  match w with
  | [] => (Raises "service unavailable", [])
  | r :: w' => (r, w')
  end.

Definition demo : Backend := {|
  Image := nat;
  World := list response;
  jpeg_bytes := fun n => str_of_nat (n mod 10);
  md5_hexdigest := fun data => data;
  b64encode := fun data => data;
  generate_content := demo_generate_content;
  fpdf_output := fun _ => "%PDF";
|}.

(** The buttons of the pages. *)
Inductive button :=
  | Start_button | Clear_button | Back_to_home | To_identify | Identify_button
  | Back_to_upload | To_generate | Generate_button | Back_to_ingredients.

Global Instance button_eq_dec : EqDecision button.
Proof. solve_decision. Defined.

(** The widget values of a run of the demo: the page picked in the
    sidebar, the picture taken, the files in the uploader, the buttons
    clicked and the text the text area returns ([None]: the text it was
    given).  The preferences are "Vegan" and "Italian", two recipes. *)
Definition demo_event (goto : option page_name) (camera : option nat)
    (files : list nat) (clicked : list button) (edited : option string)
  : @widgets demo :=
  let on b := bool_decide (b ∈ clicked) in
  @Build_widgets demo goto (on Start_button)
    (match camera with
     | Some _ => Take_Pictures_option
     | None => Upload_Images_option
     end)
    camera files (on Clear_button) (on Back_to_home) (on To_identify)
    (on Identify_button) (fun value => default value edited)
    (on Back_to_upload) (on To_generate) "Vegan" "Italian" 2
    (on Generate_button) (on Back_to_ingredients).

Definition demo_session (p : page_name) (imgs : list nat)
    (ings recs : list string) : @session_state demo :=
  @Build_session_state demo p imgs ings recs.

Definition demo_at (s : @session_state demo) (w : list response) : @ctx demo :=
  @Build_ctx demo s w [].

(** A fresh session in front of a world that will give [w]. *)
Definition demo_ctx (w : list response) : @ctx demo :=
  demo_at init_session_state w.

(** A session of the demo: go to the upload page, upload image 1, go to
    the identify page, identify (the model answers "Milk"), then type a
    second line "Milk" in the text area. *)
Definition milk_twice : list (@widgets demo) :=
  [demo_event (Some Upload_Images) None [] [] None;
   demo_event None None [1] [] None;
   demo_event (Some Identify_Ingredients) None [1] [] None;
   demo_event None None [1] [Identify_button] None;
   demo_event None None [1] []
     (Some ("Milk" +:+ String newline EmptyString +:+ "Milk"))].

(** A session of the demo in which image 11 is uploaded after image 1,
    with image 2, and image 21 is then captured: 11 and 21 encode to
    the bytes of 1. *)
Definition same_picture_again : list (@widgets demo) :=
  [demo_event (Some Upload_Images) None [] [] None;
   demo_event None None [1; 11; 2] [] None;
   demo_event None (Some 21) [] [] None].

(** A session of the demo up to the identify page with its ingredients
    identified. *)
Definition identified : list (@widgets demo) :=
  [demo_event (Some Upload_Images) None [] [] None;
   demo_event None None [1] [] None;
   demo_event None None [1] [To_identify] None;
   demo_event None None [1] [Identify_button] None].

(** The session with another page. *)
Definition with_page `{B : Backend} (p : page_name) (s : session_state)
  : session_state :=
  {| page := p; images := images s;
     ingredients := ingredients s; recipes := recipes s |}.

(** Everything the widgets of the upload page still hold is in the
    store already. *)
Definition nothing_new `{B : Backend} (w : widgets) (store : list Image) : Prop :=
  match image_option w with
  | Take_Pictures_option =>
      forall new_image, camera_input w = Some new_image ->
                        is_duplicate new_image store = true
  | Upload_Images_option =>
      Forall (fun new_image => is_duplicate new_image store = true)
             (file_uploader w)
  end.

(** ** The upload loop, frames and the steps of the wizard *)

(** The files of a batch that the upload loop appends to [store]: a
    file is kept when no image of the store, nor any file kept before
    it, has its fingerprint. *)
Fixpoint new_images_of `{B : Backend} (store files : list Image) : list Image :=
  match files with
  | [] => []
  | f :: rest =>
      if is_duplicate f store then new_images_of store rest
      else f :: new_images_of (store ++ [f]) rest
  end.

(** The session with another store, other ingredients, other recipes. *)
Definition with_images `{B : Backend} (l : list Image) (s : session_state)
  : session_state :=
  {| page := page s; images := l;
     ingredients := ingredients s; recipes := recipes s |}.

Definition with_ingredients `{B : Backend} (l : list string) (s : session_state)
  : session_state :=
  {| page := page s; images := images s;
     ingredients := l; recipes := recipes s |}.

Definition with_recipes `{B : Backend} (l : list string) (s : session_state)
  : session_state :=
  {| page := page s; images := images s;
     ingredients := ingredients s; recipes := l |}.

(** The context after [added] is appended to the store and [shown] is
    shown. *)
Definition grown `{B : Backend} (c : ctx) (added : list Image)
    (shown : list message) : ctx :=
  {| ss := with_images (images (ss c) ++ added) (ss c);
     world := world c;
     log := log c ++ shown |}.

(** What the upload branch shows after its loop. *)
Definition upload_messages (new_images duplicates : nat) : list message :=
  (if (0 <? new_images)%nat then [st_success_new_images new_images] else [])
  ++ (if (0 <? duplicates)%nat then [st_info_duplicates duplicates] else []).

(** [pages] of [show_progress] and [main]. *)
Definition pages : list page_name :=
  [Home; Upload_Images; Identify_Ingredients; Generate_Recipe].

(** [l.index(x)]; [None] stands for the [ValueError]. *)
Fixpoint list_index (x : page_name) (l : list page_name) : option nat :=
  match l with
  | [] => None
  | y :: rest =>
      if decide (y = x) then Some 0 else option_map S (list_index x rest)
  end.

(** [show_progress]: the two operands of the division whose quotient
    goes to [st.progress], and the text written under the bar; [None]
    when [pages.index] raises. *)
Definition show_progress `{B : Backend} (s : session_state)
  : option (nat * nat * string) :=
  match list_index (page s) pages with
  | None => None
  | Some current_page_index =>
      Some (current_page_index, length pages - 1,
            "Step " +:+ str_of_nat (current_page_index + 1) +:+ " of "
            +:+ str_of_nat (length pages))
  end.

(** The texts of the [multi_cell] calls and of the [cell] calls of a
    document, in order. *)
Definition multi_cell_texts (calls : list fpdf_call) : list string :=
  flat_map (fun call => match call with
                        | multi_cell _ _ txt => [txt]
                        | _ => []
                        end) calls.

Definition cell_texts (calls : list fpdf_call) : list string :=
  flat_map (fun call => match call with
                        | cell _ _ txt _ _ => [txt]
                        | _ => []
                        end) calls.

(** Two pages are the same or next to each other in [pages]. *)
Definition one_step (p q : page_name) : Prop :=
  match list_index p pages, list_index q pages with
  | Some i, Some j => j = i \/ j = i + 1 \/ i = j + 1
  | _, _ => False
  end.

(** ** The contexts between the parts of the identify and recipe pages *)

(** The context after the "Identify Ingredients" button of the identify
    page has been handled. *)
Definition identified_ctx `{B : Backend} (w : widgets) (c : ctx) : ctx :=
  if identify_button w
  then let tr := vision_trace (images (ss c)) (world c) in
       {| ss := with_ingredients
                  (elements (list_to_set (flat_map items_of tr.1) : gset string))
                  (ss c);
          world := tr.2;
          log := log c ++ diagnostics identify_prefix tr.1 |}
  else c.

(** The context after the text area of the identify page. *)
Definition edited_ctx `{B : Backend} (w : widgets) (c : ctx) : ctx :=
  if nonempty (ingredients (ss c))
  then {| ss := with_ingredients
                  (edited_ingredients
                     (text_area w (join (String newline EmptyString)
                                        (ingredients (ss c)))))
                  (ss c);
          world := world c;
          log := log c |}
  else c.

(** The context after the "Generate Recipes" button of the recipe page
    has been handled. *)
Definition generated_ctx `{B : Backend} (w : widgets) (c : ctx) : ctx :=
  if generate_button w
  then let tr := text_trace (recipe_prompt (ingredients (ss c))
                               (diet_selectbox w) (cuisine_selectbox w))
                            (num_recipes_slider w) (world c) in
       {| ss := with_recipes (map slot tr.1) (ss c);
          world := tr.2;
          log := log c ++ diagnostics generate_prefix tr.1 |}
  else c.

(** The context after the recipes of the session are shown. *)
Definition rendered_ctx `{B : Backend} (c : ctx) : ctx :=
  if nonempty (recipes (ss c))
  then {| ss := ss c;
          world := world c;
          log := log c ++ map recipe_container (enumerate 1 (recipes (ss c)))
                 ++ [st_markdown (get_pdf_download_link (recipes (ss c)))] |}
  else c.

(** The context with another page. *)
Definition on_page `{B : Backend} (p : page_name) (c : ctx) : ctx :=
  {| ss := with_page p (ss c); world := world c; log := log c |}.

(** The context with one more message shown. *)
Definition showing `{B : Backend} (m : message) (c : ctx) : ctx :=
  {| ss := ss c; world := world c; log := log c ++ [m] |}.

(** No button is clicked and the sidebar shows the current page. *)
Definition no_click `{B : Backend} (w : widgets) : Prop :=
  sidebar_radio w = None /\ start_button w = false
  /\ clear_all_images w = false /\ back_to_home w = false
  /\ to_identify w = false /\ identify_button w = false
  /\ back_to_upload w = false /\ to_generate w = false
  /\ generate_button w = false /\ back_to_ingredients w = false.

(** ** The single-page variant, [openai.py]

    Its [main] keeps two keys in [st.session_state]: [images], set to
    the empty list when absent, and [ingredients], absent until the
    first identification.  The script is written with the state, the
    world and what is shown passed along.  [identify_items] and
    [generate_recipe] send the model the same instruction, image data
    and prompt as in [app.py]; the request is written with the same
    [content].  The recipe of a run is shown with [st.write], which
    renders a string as markdown; the hint shown while there are no
    ingredients is not recorded. *)

Module OpenAI.
Section Variant.
Context {B : Backend}.

(** [str(imagehash.average_hash(image))] *)
Variable average_hash : Image -> string.

Definition image_hash (image : Image) : string := average_hash image.

Fixpoint is_duplicate (new_image : Image) (existing_images : list Image) : bool :=
  let new_hash := image_hash new_image in
  match existing_images with
  | [] => false
  | img :: rest =>
      if String.eqb (image_hash img) new_hash then true
      else is_duplicate new_image rest
  end.

(** The loop of [identify_items] over the images left, with
    [all_items], the world and the diagnostics shown so far. *)
Fixpoint identify_loop (images : list Image) (all_items : list string)
    (w : World) (shown : list message) : list string * World * list message :=
  match images with
  | [] => (all_items, w, shown)
  | image :: rest =>
      let base64_image := b64encode (jpeg_bytes image) in
      match generate_content
              (ImagePrompt identify_instruction "image/jpeg" base64_image) w with
      | (Text text, w') =>
          let items := split comma text in
          identify_loop rest (all_items ++ map strip items) w' shown
      | (Raises e, w') =>
          identify_loop rest all_items w'
            (shown ++ [st_error ("An error occurred while identifying items: " +:+ e)])
      end
  end.

Definition identify_items (images : list Image) (w : World)
  : list string * World * list message :=
  let '(all_items, w', shown) := identify_loop images [] w [] in
  (elements (list_to_set all_items : gset string), w', shown).

Definition generate_recipe (items : list string)
    (diet_preference cuisine_preference : string) (w : World)
  : string * World * list message :=
  let diet_instruction :=
    if negb (String.eqb diet_preference "None")
    then "The recipe should be " +:+ lower diet_preference +:+ "."
    else EmptyString in
  let cuisine_instruction :=
    if negb (String.eqb cuisine_preference "Any")
    then "The recipe should be " +:+ cuisine_preference +:+ " cuisine."
    else EmptyString in
  match generate_content
          (TextPrompt
             ("Create a recipe using these ingredients: " +:+ join ", " items
              +:+ ". " +:+ diet_instruction +:+ " " +:+ cuisine_instruction
              +:+ " Provide the recipe name, ingredients with quantities, and step-by-step instructions."))
          w with
  | (Text text, w') => (text, w', [])
  | (Raises e, w') =>
      ("Unable to generate recipe. Please try again.", w',
       [st_error ("An error occurred while generating the recipe: " +:+ e)])
  end.

(** [st.session_state] after the first statement of [main];
    [ingredients] is [None] while the key is absent. *)
Record session := {
  images : list Image;
  ingredients : option (list string);
}.

Definition fresh : session := {| images := []; ingredients := None |}.

Record widgets := {
  image_option : image_choice;
  camera_input : option Image;
  file_uploader : list Image;
  clear_all_images : bool;
  identify_button : bool;
  text_area : string -> string;
  diet_selectbox : string;
  cuisine_selectbox : string;
  generate_button : bool;
}.

(** The loop over the uploaded files, with the store and the two
    counters. *)
Fixpoint upload_loop (uploaded_files : list Image) (store : list Image)
    (new_images duplicates : nat) : list Image * nat * nat :=
  match uploaded_files with
  | [] => (store, new_images, duplicates)
  | new_image :: rest =>
      if negb (is_duplicate new_image store)
      then upload_loop rest (store ++ [new_image]) (new_images + 1) duplicates
      else upload_loop rest store new_images (duplicates + 1)
  end.

(** The first part of the left column: the picture taken or the files
    uploaded are added to the store.  A picture that is a duplicate is
    dropped without a message. *)
Definition add_images (wd : widgets) (store : list Image)
  : list Image * list message :=
  match image_option wd with
  | Take_Pictures_option =>
      match camera_input wd with
      | Some new_image =>
          if negb (is_duplicate new_image store)
          then (store ++ [new_image], [st_success_image_added])
          else (store, [])
      | None => (store, [])
      end
  | Upload_Images_option =>
      match file_uploader wd with
      | [] => (store, [])
      | uploaded_files =>
          let '(store', new_images, duplicates) :=
            upload_loop uploaded_files store 0 0 in
          (store',
           (if (0 <? new_images)%nat then [st_success_new_images new_images] else [])
           ++ (if (0 <? duplicates)%nat then [st_info_duplicates duplicates] else []))
      end
  end.

(** What a run gives: the session, the world, what was shown, and
    whether [st.experimental_rerun()] stopped it. *)
Record outcome := {
  state : session;
  after : World;
  shown : list message;
  rerun : bool;
}.

(** The right column. *)
Definition right_column (wd : widgets) (s : session) (w : World)
    (sh : list message) : outcome :=
  match ingredients s with
  | Some l =>
      let text := text_area wd (join (String newline EmptyString) l) in
      let l' := map strip (filter (fun item => truthy (strip item) = true)
                                  (split newline text)) in
      let s' := {| images := images s; ingredients := Some l' |} in
      if generate_button wd
      then let '(recipe, w', errors) :=
             generate_recipe l' (diet_selectbox wd) (cuisine_selectbox wd) w in
           {| state := s'; after := w';
              shown := sh ++ errors ++ [st_markdown recipe]; rerun := false |}
      else {| state := s'; after := w; shown := sh; rerun := false |}
  | None => {| state := s; after := w; shown := sh; rerun := false |}
  end.

Definition main (wd : widgets) (s : session) (w : World) : outcome :=
  let '(store, sh) := add_images wd (images s) in
  let s1 := {| images := store; ingredients := ingredients s |} in
  match store with
  | [] => right_column wd s1 w sh
  | _ :: _ =>
      if clear_all_images wd
      then {| state := {| images := []; ingredients := ingredients s |};
              after := w; shown := sh; rerun := true |}
      else if identify_button wd
      then let '(identified_items, w', errors) := identify_items store w in
           right_column wd {| images := store; ingredients := Some identified_items |}
                        w' (sh ++ errors)
      else right_column wd s1 w sh
  end.

(** A session: the runs of the script from a fresh session. *)
Definition run_session (events : list widgets) (w0 : World) : session * World :=
  foldl (fun sw wd => let o := main wd sw.1 sw.2 in (state o, after o))
        (fresh, w0) events.

End Variant.
End OpenAI.

(** The demo for the single-page variant: the fingerprint of an image is
    its last digit. *)
Definition demo_average_hash (n : nat) : string := str_of_nat (n mod 10).

Definition demo_openai_event (camera : option nat) (files : list nat)
    (clear identify generate : bool) : @OpenAI.widgets demo :=
  @OpenAI.Build_widgets demo
    (match camera with
     | Some _ => Take_Pictures_option
     | None => Upload_Images_option
     end)
    camera files clear identify (fun value => value) "None" "Any" generate.

(** ** Recipes with characters outside Latin-1

    The text of a recipe is what the model wrote, and may hold any
    character.  Where that matters, in the export, a Python [str] is
    the list of its code points. *)

Module Unicode.

Definition text : Type := list N.

(** Every character of the text is in Latin-1. *)
Definition is_latin1 (t : text) : bool :=
  forallb (fun code_point => (code_point <? 256)%N) t.

(** [t.encode("latin-1")]; [None] is the [UnicodeEncodeError]. *)
Definition encode_latin1 (t : text) : option string :=
  if is_latin1 t then Some (string_of_list_ascii (map ascii_of_N t)) else None.

(** [s.decode("latin-1")] *)
Definition decode_latin1 (s : string) : text :=
  map N_of_ascii (list_ascii_of_string s).

(** The texts of the recipes as FPDF encodes them when it closes the
    document; one text outside Latin-1 makes it raise. *)
Fixpoint encode_all (recipes : list text) : option (list string) :=
  match recipes with
  | [] => Some []
  | recipe :: rest =>
      match encode_latin1 recipe, encode_all rest with
      | Some r, Some rs => Some (r :: rs)
      | _, _ => None
      end
  end.

(** [get_pdf_download_link] on the recipes as the model wrote them.
    The calls on the [FPDF] object take any text; [pdf.output(dest="S")]
    encodes the pages as Latin-1 and raises [UnicodeEncodeError] for a
    character outside it, before [.encode("latin-1", errors="ignore")]
    is applied to what it returns.  [None] is that exception. *)
Definition get_pdf_download_link `{B : Backend} (recipes : list text)
  : option string :=
  match encode_all recipes with
  | Some latin1_recipes => Some (get_pdf_download_link latin1_recipes)
  | None => None
  end.

End Unicode.


(** A recipe with a typographic apostrophe, U+2019: "It's". *)
Definition its_recipe : Unicode.text := [73; 116; 8217; 115]%N.

(** ** Images the JPEG encoder refuses

    [image.save(buffered, format="JPEG")] raises [OSError] for an image
    in a mode JPEG cannot hold, such as a PNG with transparency or a
    palette, which the uploader accepts.  Here the encoder is partial,
    and so are [image_hash], [is_duplicate] and the upload loop. *)

Module Pil.
Section Encoder.
Context {B : Backend}.

(** [image_to_bytes]; [None] is the [OSError]. *)
Variable save_jpeg : Image -> option string.

Definition image_to_bytes (image : Image) : option string := save_jpeg image.


Definition image_hash (image : Image) : option string :=
  option_map md5_hexdigest (image_to_bytes image).

(** The loop of [is_duplicate], [new_hash] computed. *)
Fixpoint is_duplicate_of (new_hash : string) (existing_images : list Image)
  : option bool :=
  match existing_images with
  | [] => Some false
  | img :: rest =>
      match image_hash img with
      | None => None
      | Some h =>
          if String.eqb h new_hash then Some true
          else is_duplicate_of new_hash rest
      end
  end.

Definition is_duplicate (new_image : Image) (existing_images : list Image)
  : option bool :=
  match image_hash new_image with
  | None => None
  | Some new_hash => is_duplicate_of new_hash existing_images
  end.

(** What the loop over the uploaded files leaves: the store, the two
    counters, and whether an exception cut it short. *)
Record upload_result := {
  store_after : list Image;
  new_images : nat;
  duplicates : nat;
  raised : bool;
}.

Fixpoint upload_loop (uploaded_files : list Image) (store : list Image)
    (new_images duplicates : nat) : upload_result :=
  match uploaded_files with
  | [] => {| store_after := store; new_images := new_images;
             duplicates := duplicates; raised := false |}
  | new_image :: rest =>
      match is_duplicate new_image store with
      | None => {| store_after := store; new_images := new_images;
                   duplicates := duplicates; raised := true |}
      | Some false => upload_loop rest (store ++ [new_image]) (new_images + 1) duplicates
      | Some true => upload_loop rest store new_images (duplicates + 1)
      end
  end.

End Encoder.
End Pil.

(** An encoder for the demo that refuses the images numbered 100 and
    above. *)
Definition demo_save_jpeg (n : nat) : option string :=
  if (n <? 100)%nat then Some (str_of_nat (n mod 10)) else None.

(** * Properties *)

(** ** Strings *)

Section StringFacts.

Lemma truthy_false (s : string) : truthy s = false -> s = EmptyString.
Proof. destruct s; [reflexivity | discriminate]. Qed.

Lemma lstrip_idem (s : string) : lstrip (lstrip s) = lstrip s.
Proof.
  induction s as [|c s IH]; simpl; [reflexivity|].
  destruct (isspace c) eqn:E; [exact IH|].
  simpl. rewrite E. reflexivity.
Qed.

Lemma rstrip_idem (s : string) : rstrip (rstrip s) = rstrip s.
Proof.
  induction s as [|c s IH]; simpl; [reflexivity|].
  destruct (negb (truthy (rstrip s)) && isspace c) eqn:E; simpl.
  - reflexivity.
  - rewrite IH, E. reflexivity.
Qed.

Lemma rstrip_fixed_tail (c : ascii) (s : string) :
  rstrip (String c s) = String c s -> rstrip s = s.
Proof.
  simpl. destruct (negb (truthy (rstrip s)) && isspace c); [discriminate|].
  intros H. injection H. trivial.
Qed.

Lemma rstrip_lstrip_fixed (s : string) :
  rstrip s = s -> rstrip (lstrip s) = lstrip s.
Proof.
  induction s as [|c s IH]; intros H; [reflexivity|].
  simpl lstrip. destruct (isspace c); [|exact H].
  apply IH. exact (rstrip_fixed_tail _ _ H).
Qed.

Lemma strip_idem (s : string) : strip (strip s) = strip s.
Proof.
  unfold strip.
  rewrite (rstrip_lstrip_fixed (rstrip s)) by apply rstrip_idem.
  apply lstrip_idem.
Qed.

Lemma has_char_lstrip (c : ascii) (s : string) :
  has_char c s = false -> has_char c (lstrip s) = false.
Proof.
  induction s as [|c' s IH]; simpl; [trivial|].
  intros H. apply orb_false_iff in H as [H1 H2].
  destruct (isspace c'); [auto|]. simpl. rewrite H1, H2. reflexivity.
Qed.

Lemma has_char_rstrip (c : ascii) (s : string) :
  has_char c s = false -> has_char c (rstrip s) = false.
Proof.
  induction s as [|c' s IH]; simpl; [trivial|].
  intros H. apply orb_false_iff in H as [H1 H2].
  destruct (negb (truthy (rstrip s)) && isspace c'); [reflexivity|].
  simpl. rewrite H1, (IH H2). reflexivity.
Qed.

Lemma has_char_strip (c : ascii) (s : string) :
  has_char c s = false -> has_char c (strip s) = false.
Proof. intros H. apply has_char_lstrip, has_char_rstrip, H. Qed.

Lemma split_nonempty (sep : ascii) (s : string) : split sep s <> [].
Proof.
  induction s as [|c s IH]; simpl; [discriminate|].
  destruct (Ascii.eqb c sep); [discriminate|].
  destruct (split sep s); [contradiction|discriminate].
Qed.

Lemma split_segments (sep : ascii) (s : string) :
  Forall (fun seg => has_char sep seg = false) (split sep s).
Proof.
  induction s as [|c s IH]; simpl.
  - repeat constructor.
  - destruct (Ascii.eqb c sep) eqn:E.
    + constructor; [reflexivity | exact IH].
    + destruct (split sep s) as [|seg segs]; [repeat constructor; simpl; rewrite E; reflexivity|].
      inversion IH as [|? ? Hseg Hsegs]; subst.
      constructor; [simpl; rewrite E, Hseg; reflexivity | exact Hsegs].
Qed.

Lemma split_no_sep (sep : ascii) (s : string) :
  has_char sep s = false -> split sep s = [s].
Proof.
  induction s as [|c s IH]; simpl; [reflexivity|].
  intros H. apply orb_false_iff in H as [H1 H2].
  rewrite H1, (IH H2). reflexivity.
Qed.

Lemma split_app_sep (sep : ascii) (x rest : string) :
  has_char sep x = false ->
  split sep (x +:+ String sep rest) = x :: split sep rest.
Proof.
  induction x as [|c x IH]; simpl.
  - intros _. rewrite Ascii.eqb_refl. reflexivity.
  - intros H. apply orb_false_iff in H as [H1 H2].
    rewrite H1, (IH H2). reflexivity.
Qed.

Lemma split_join (sep : ascii) (l : list string) :
  l <> [] ->
  Forall (fun x => has_char sep x = false) l ->
  split sep (join (String sep EmptyString) l) = l.
Proof.
  induction l as [|x l IH]; intros Hne Hl; [contradiction|].
  inversion Hl as [|? ? Hx Hrest]; subst.
  destruct l as [|y l].
  - simpl. apply split_no_sep, Hx.
  - change (join (String sep EmptyString) (x :: y :: l))
      with (x +:+ String sep EmptyString +:+ join (String sep EmptyString) (y :: l)).
    change (String sep EmptyString +:+ join (String sep EmptyString) (y :: l))
      with (String sep (join (String sep EmptyString) (y :: l))).
    rewrite split_app_sep by exact Hx.
    rewrite IH by (try discriminate; exact Hrest). reflexivity.
Qed.

Lemma prefix_app (sub t : string) : String.prefix sub (sub +:+ t) = true.
Proof.
  induction sub as [|c sub IH]; simpl; [destruct t; reflexivity|].
  destruct (ascii_dec c c); [exact IH | contradiction].
Qed.

Lemma contains_here (sub t : string) : contains sub (sub +:+ t) = true.
Proof.
  destruct sub, t; simpl; try reflexivity;
    rewrite ?prefix_app; try reflexivity;
    destruct (ascii_dec a a); try contradiction;
    rewrite ?prefix_app; try reflexivity.
Qed.

Lemma contains_app_r (sub a t : string) :
  contains sub t = true -> contains sub (a +:+ t) = true.
Proof.
  intros H. induction a as [|c a IH]; simpl; [exact H|].
  rewrite IH. apply orb_true_r.
Qed.

End StringFacts.

(** ** The ingredient extractor *)

Section Extractor.
Context {B : Backend}.

(** The loop of [identify_items] makes one call per image, whatever the
    earlier calls gave, and never stops the script. *)
Lemma identify_loop_trace (images : list Image) (acc : list string) (c : ctx) :
  for_each images acc (fun all_items image =>
      let base64_image := b64encode (image_to_bytes image) in
      do r <- call_model (ImagePrompt identify_instruction "image/jpeg" base64_image);
      match r with
      | Text text =>
          let items := split comma text in
          ret (all_items ++ map strip items)
      | Raises e =>
          show (st_error ("An error occurred while identifying items: " +:+ e)) >>
          ret all_items
      end) c
  = (Continue (acc ++ flat_map items_of (vision_trace images (world c)).1),
     {| ss := ss c;
        world := (vision_trace images (world c)).2;
        log := log c ++ diagnostics identify_prefix (vision_trace images (world c)).1 |}).
Proof.
  revert acc c. induction images as [|image rest IH]; intros acc c.
  - destruct c; simpl. unfold ret. rewrite !app_nil_r. reflexivity.
  - simpl. unfold bind at 1. unfold bind at 1. unfold call_model.
    destruct (generate_content _ (world c)) as [r w'] eqn:Hcall.
    destruct (vision_trace rest w') as [rs w''] eqn:Htrace.
    destruct r as [text|e].
    + unfold ret at 1. rewrite IH. simpl. rewrite Htrace. simpl.
      rewrite <- app_assoc. reflexivity.
    + unfold bind at 1, show, ret at 1. rewrite IH. simpl. rewrite Htrace. simpl.
      rewrite <- app_assoc. reflexivity.
Qed.

Lemma identify_items_trace (images : list Image) (c : ctx) :
  identify_items images c
  = (Continue (elements (list_to_set
                 (flat_map items_of (vision_trace images (world c)).1) : gset string)),
     {| ss := ss c;
        world := (vision_trace images (world c)).2;
        log := log c ++ diagnostics identify_prefix (vision_trace images (world c)).1 |}).
Proof.
  unfold identify_items, bind. rewrite identify_loop_trace. reflexivity.
Qed.

Lemma vision_trace_length (images : list Image) (w : World) :
  length (vision_trace images w).1 = length images.
Proof.
  revert w. induction images as [|image rest IH]; intros w; simpl; [reflexivity|].
  destruct (generate_content _ w) as [r w'].
  specialize (IH w'). destruct (vision_trace rest w'). simpl in *. lia.
Qed.

Lemma diagnostics_length (prefix : string) (rs : list response) :
  length (diagnostics prefix rs) = length (filter (fun r => failed r = true) rs).
Proof.
  induction rs as [|r rs IH]; [reflexivity|].
  destruct r.
  - rewrite filter_cons_False by (simpl; discriminate). exact IH.
  - rewrite filter_cons_True by reflexivity. simpl. rewrite IH. reflexivity.
Qed.

Lemma identify_items_elem (images : list Image) (c : ctx) (x : string) :
  x ∈ elements (list_to_set
         (flat_map items_of (vision_trace images (world c)).1) : gset string)
  <-> exists text segment,
        Text text ∈ (vision_trace images (world c)).1
        /\ segment ∈ split comma text /\ x = strip segment.
Proof.
  rewrite elem_of_elements, elem_of_list_to_set.
  rewrite list_elem_of_In, in_flat_map.
  split.
  - intros [r [Hr Hx]]. destruct r as [text|e]; [|destruct Hx].
    simpl in Hx. apply in_map_iff in Hx as [segment [Heq Hseg]].
    exists text, segment. split; [|split; [|symmetry; exact Heq]];
      apply list_elem_of_In; assumption.
  - intros [text [segment [Hr [Hseg ->]]]].
    exists (Text text). apply list_elem_of_In in Hr. apply list_elem_of_In in Hseg.
    split; [exact Hr|].
    simpl. apply in_map. exact Hseg.
Qed.

End Extractor.

(** ** The recipe generator *)

Section Generator.
Context {B : Backend}.

Lemma generate_recipe_eq (items : list string) (diet cuisine : string) (c : ctx) :
  generate_recipe items diet cuisine c
  = let '(r, w') :=
      generate_content (TextPrompt (recipe_prompt items diet cuisine)) (world c) in
    (Continue (slot r),
     {| ss := ss c; world := w';
        log := log c ++ diagnostics generate_prefix [r] |}).
Proof.
  unfold generate_recipe, bind, call_model.
  destruct (generate_content _ (world c)) as [[text|e] w'].
  - unfold ret. simpl. rewrite app_nil_r. reflexivity.
  - reflexivity.
Qed.

Lemma generate_loop_trace (items : list string) (diet cuisine : string)
    (n : nat) (recipes : list string) (c : ctx) :
  let tr := text_trace (recipe_prompt items diet cuisine) n (world c) in
  generate_loop items diet cuisine n recipes c
  = (Continue (recipes ++ map slot tr.1),
     {| ss := ss c; world := tr.2;
        log := log c ++ diagnostics generate_prefix tr.1 |}).
Proof.
  revert recipes c. induction n as [|n IH]; intros recipes c.
  - destruct c; simpl. unfold ret. rewrite !app_nil_r. reflexivity.
  - simpl. unfold bind at 1. rewrite generate_recipe_eq.
    destruct (generate_content _ (world c)) as [r w'] eqn:Hcall.
    rewrite IH. simpl.
    destruct (text_trace _ n w') as [rs w''] eqn:Htrace. simpl.
    rewrite <- !app_assoc. reflexivity.
Qed.

Lemma generate_multiple_recipes_trace (items : list string)
    (diet cuisine : string) (n : nat) (c : ctx) :
  let tr := text_trace (recipe_prompt items diet cuisine) n (world c) in
  generate_multiple_recipes items diet cuisine n c
  = (Continue (map slot tr.1),
     {| ss := ss c; world := tr.2;
        log := log c ++ diagnostics generate_prefix tr.1 |}).
Proof. apply generate_loop_trace. Qed.

Lemma text_trace_length (prompt : string) (n : nat) (w : World) :
  length (text_trace prompt n w).1 = n.
Proof.
  revert w. induction n as [|n IH]; intros w; simpl; [reflexivity|].
  destruct (generate_content _ w) as [r w'].
  specialize (IH w'). destruct (text_trace prompt n w'). simpl in *. lia.
Qed.

(** The [k]-th outcome of the trace is what the model gives in the world
    left by the [k] calls before it. *)
Lemma text_trace_lookup (prompt : string) (n k : nat) (w : World) :
  k < n ->
  (text_trace prompt n w).1 !! k
  = Some (generate_content (TextPrompt prompt) (text_trace prompt k w).2).1.
Proof.
  revert k w. induction n as [|n IH]; intros k w Hk; [lia|].
  simpl. destruct (generate_content _ w) as [r w'] eqn:Hcall.
  destruct k as [|k].
  - destruct (text_trace prompt n w'). simpl. rewrite Hcall. reflexivity.
  - specialize (IH k w' ltac:(lia)).
    destruct (text_trace prompt n w') as [rs w'']. simpl in *.
    rewrite Hcall. destruct (text_trace prompt k w'). simpl in *. exact IH.
Qed.

End Generator.

Section Recording.
Context (B : Backend).

Lemma text_trace_requests (prompt : string) (n : nat) (wl : @World (recording B)) :
  (text_trace (B := recording B) prompt n wl).2.2
  = wl.2 ++ replicate n (TextPrompt prompt).
Proof.
  revert wl. induction n as [|n IH]; intros [w l]; simpl.
  - rewrite app_nil_r. reflexivity.
  - destruct (@generate_content B (TextPrompt prompt) w) as [r w'].
    specialize (IH (w', l ++ [TextPrompt prompt])).
    destruct (text_trace (B := recording B) prompt n (w', l ++ [TextPrompt prompt]))
      as [rs wl']. simpl in *. rewrite IH, <- app_assoc. reflexivity.
Qed.

Lemma vision_trace_requests (images : list (@Image B)) (wl : @World (recording B)) :
  (vision_trace (B := recording B) images wl).2.2
  = wl.2 ++ map (vision_request (B := B)) images.
Proof.
  revert wl. induction images as [|image rest IH]; intros [w l]; simpl.
  - rewrite app_nil_r. reflexivity.
  - destruct (@generate_content B _ w) as [r w'].
    match goal with
    | |- context [vision_trace rest ?x] => specialize (IH x);
        destruct (vision_trace (B := recording B) rest x) as [rs wl']
    end.
    simpl in *. rewrite IH, <- app_assoc. reflexivity.
Qed.

(** [identify_items] sends one request per image, in the order of the
    images, whatever the calls give. *)
Lemma identify_items_requests (images : list (@Image B)) (c : @ctx (recording B)) :
  requests (identify_items (B := recording B) images c).2
  = requests c ++ map (vision_request (B := B)) images.
Proof.
  rewrite identify_items_trace. unfold requests. simpl.
  apply vision_trace_requests.
Qed.

(** [generate_multiple_recipes] sends the prompt [num_recipes] times. *)
Lemma generate_multiple_recipes_requests (items : list string)
    (diet cuisine : string) (n : nat) (c : @ctx (recording B)) :
  requests (generate_multiple_recipes (B := recording B) items diet cuisine n c).2
  = requests c ++ replicate n (TextPrompt (recipe_prompt items diet cuisine)).
Proof.
  rewrite generate_multiple_recipes_trace. unfold requests. simpl.
  apply text_trace_requests.
Qed.

End Recording.

(** ** Claims on the extractor *)

Section ExtractorClaims.
Context {B : Backend}.

Lemma diagnostics_single (prefix e : string) (rs : list response) :
  filter (fun r => failed r = true) rs = [Raises e] ->
  diagnostics prefix rs = [st_error (prefix +:+ e)].
Proof.
  induction rs as [|r rs IH]; [discriminate|].
  destruct r as [text|e'].
  - rewrite filter_cons_False by (simpl; discriminate). exact IH.
  - rewrite filter_cons_True by reflexivity. intros H.
    injection H as -> Hrest. simpl. f_equal.
    assert (Hlen := diagnostics_length prefix rs). rewrite Hrest in Hlen.
    destruct (diagnostics prefix rs); [reflexivity | discriminate].
Qed.

(** C4.  [identify_items] calls the model once per image whatever the
    earlier calls gave.  It always comes back with a result; a failed
    call adds exactly one [st.error] diagnostic, in call order, and
    nothing else; the items of every call that succeeded are in the
    result, which is then not empty.  In particular a batch with exactly
    one failed call shows exactly one diagnostic.  The requests sent are
    those of all the images, in order. *)
Theorem identify_items_survives_failures (images : list Image) (c : ctx) :
  let rs := (vision_trace images (world c)).1 in
  exists r c',
    identify_items images c = (Continue r, c')
    /\ ss c' = ss c
    /\ length rs = length images
    /\ log c' = log c ++ diagnostics identify_prefix rs
    /\ length (diagnostics identify_prefix rs)
       = length (filter (fun r => failed r = true) rs)
    /\ (forall e, filter (fun r => failed r = true) rs = [Raises e] ->
        log c' = log c ++ [st_error (identify_prefix +:+ e)])
    /\ (forall text, Text text ∈ rs ->
        r <> [] /\ forall seg, seg ∈ split comma text -> strip seg ∈ r)
    /\ (forall cr : @ctx (recording B),
        requests (identify_items (B := recording B) images cr).2
        = requests cr ++ map vision_request images).
Proof.
  intros rs. eexists _, _. split; [apply identify_items_trace|]. simpl.
  split; [reflexivity|]. split; [apply vision_trace_length|].
  split; [reflexivity|]. split; [apply diagnostics_length|].
  split; [|split; [|apply identify_items_requests]].
  - intros e He. f_equal. apply diagnostics_single, He.
  - intros text Htext.
    assert (Hin : forall seg, seg ∈ split comma text ->
              strip seg ∈ elements (list_to_set (flat_map items_of rs) : gset string)).
    { intros seg Hseg. apply identify_items_elem. eauto. }
    split; [|exact Hin].
    destruct (split comma text) as [|seg segs] eqn:Hsplit.
    + exfalso. exact (split_nonempty _ _ Hsplit).
    + intros Hnil. specialize (Hin seg (list_elem_of_here _ _)).
      fold rs in Hnil. rewrite Hnil in Hin. inversion Hin.
Qed.

(** C5, as the code has it.  [identify_items] splits each response on
    commas and trims every segment, and keeps the empty ones: its result
    holds exactly the trimmed segments of the responses that succeeded,
    each of them a trimmed string, the empty string among them when a
    segment is empty or blank.  The empty entry goes only in the edit
    step of the page, whose result holds trimmed, non-empty strings. *)
Theorem identify_items_trims_keeps_empty (images : list Image) (c : ctx) :
  let rs := (vision_trace images (world c)).1 in
  exists r c',
    identify_items images c = (Continue r, c')
    /\ (forall x, x ∈ r <->
          exists text seg, Text text ∈ rs /\ seg ∈ split comma text /\ x = strip seg)
    /\ (forall x, x ∈ r -> strip x = x)
    /\ (forall text seg, Text text ∈ rs -> seg ∈ split comma text ->
          strip seg = EmptyString -> EmptyString ∈ r)
    /\ (forall edited x, x ∈ edited_ingredients edited ->
          strip x = x /\ x <> EmptyString).
Proof.
  intros rs. eexists _, _. split; [apply identify_items_trace|].
  split; [intros x; apply identify_items_elem|].
  split; [|split].
  - intros x Hx. apply identify_items_elem in Hx as (text & seg & _ & _ & ->).
    apply strip_idem.
  - intros text seg Htext Hseg Hempty. apply identify_items_elem.
    exists text, seg. auto.
  - intros edited x Hx. unfold edited_ingredients in Hx.
    apply list_elem_of_fmap in Hx as (item & -> & Hitem).
    apply list_elem_of_filter in Hitem as [Htruthy _].
    split; [apply strip_idem|]. intros Heq. rewrite Heq in Htruthy. discriminate.
Qed.

End ExtractorClaims.


(** ** Claims on the generator *)

Section GeneratorClaims.
Context {B : Backend}.

Lemma diet_instruction_empty (diet : string) :
  diet_instruction diet = EmptyString <-> diet = "None".
Proof.
  unfold diet_instruction. destruct (String.eqb_spec diet "None") as [->|Hne]; simpl.
  - split; reflexivity.
  - split; [discriminate | contradiction].
Qed.

Lemma cuisine_instruction_empty (cuisine : string) :
  cuisine_instruction cuisine = EmptyString <-> cuisine = "Any".
Proof.
  unfold cuisine_instruction. destruct (String.eqb_spec cuisine "Any") as [->|Hne]; simpl.
  - split; reflexivity.
  - split; [discriminate | contradiction].
Qed.

Lemma unable_marker_text :
  unable_marker = "Unable to generate recipe. Please try again."
  /\ unable_marker <> EmptyString.
Proof. split; [reflexivity | discriminate]. Qed.

(** C8.  [generate_multiple_recipes] comes back with a list of at most
    [num_recipes] entries in request order: entry [k] is the outcome of
    the call made in the world the [k] earlier calls left, so the calls
    are made one after the other, and the requests sent are the prompt,
    [num_recipes] times.  A failed request shows one [st.error]
    diagnostic, in request order, and its entry is the failure marker,
    which is not empty; no entry is added for anything else. *)
Theorem generate_multiple_recipes_in_order (items : list string)
    (diet cuisine : string) (num_recipes : nat) (c : ctx) :
  let prompt := recipe_prompt items diet cuisine in
  let rs := (text_trace prompt num_recipes (world c)).1 in
  exists recipes c',
    generate_multiple_recipes items diet cuisine num_recipes c
    = (Continue recipes, c')
    /\ length recipes <= num_recipes
    /\ (forall k, k < num_recipes ->
        recipes !! k
        = Some (slot (generate_content (TextPrompt prompt)
                        (text_trace prompt k (world c)).2).1))
    /\ log c' = log c ++ diagnostics generate_prefix rs
    /\ length (diagnostics generate_prefix rs)
       = length (filter (fun r => failed r = true) rs)
    /\ (forall k e, rs !! k = Some (Raises e) ->
        recipes !! k = Some unable_marker /\ unable_marker <> EmptyString)
    /\ (forall cr : @ctx (recording B),
        requests (generate_multiple_recipes (B := recording B)
                    items diet cuisine num_recipes cr).2
        = requests cr ++ replicate num_recipes (TextPrompt prompt)).
Proof.
  intros prompt rs. eexists _, _.
  split; [apply generate_multiple_recipes_trace|]. simpl.
  fold prompt. fold rs.
  split; [rewrite length_map; unfold rs; rewrite text_trace_length; lia|].
  split.
  { intros k Hk. rewrite list_lookup_fmap. unfold rs.
    rewrite text_trace_lookup by exact Hk. reflexivity. }
  split; [reflexivity|].
  split; [apply diagnostics_length|].
  split.
  { intros k e Hk. rewrite list_lookup_fmap, Hk. split; [reflexivity|].
    apply unable_marker_text. }
  intros cr. apply generate_multiple_recipes_requests.
Qed.

(** C10.  [generate_multiple_recipes] never raises and its list has
    exactly [num_recipes] entries: the text of the response where the
    request succeeded and the fixed marker "Unable to generate recipe.
    Please try again." where it failed. *)
Theorem generate_multiple_recipes_length (items : list string)
    (diet cuisine : string) (num_recipes : nat) (c : ctx) :
  let rs := (text_trace (recipe_prompt items diet cuisine) num_recipes (world c)).1 in
  exists recipes c',
    generate_multiple_recipes items diet cuisine num_recipes c
    = (Continue recipes, c')
    /\ length recipes = num_recipes
    /\ length rs = num_recipes
    /\ (forall k e, rs !! k = Some (Raises e) ->
        recipes !! k = Some "Unable to generate recipe. Please try again.")
    /\ (forall k text, rs !! k = Some (Text text) -> recipes !! k = Some text).
Proof.
  intros rs. eexists _, _.
  split; [apply generate_multiple_recipes_trace|]. simpl. fold rs.
  assert (Hlen : length rs = num_recipes) by apply text_trace_length.
  split; [rewrite length_map; exact Hlen|]. split; [exact Hlen|].
  split; intros k x Hk; rewrite list_lookup_fmap, Hk; reflexivity.
Qed.

End GeneratorClaims.

(** ** The exporter *)

Section Exporter.
Context {B : Backend}.

Lemma pdf_sections_lookup (recipes : list string) (start i : nat) (r : string) :
  recipes !! i = Some r ->
  let body := flat_map pdf_section (enumerate start recipes) in
  body !! (3 * i) = Some (cell 200 10 ("Recipe " +:+ str_of_nat (start + i)) true "C")
  /\ body !! (3 * i + 1) = Some (multi_cell 0 10 r)
  /\ body !! (3 * i + 2) = Some (ln 10).
Proof.
  revert start i. induction recipes as [|r0 recipes IH]; intros start i Hi;
    [discriminate|].
  destruct i as [|i].
  - injection Hi as ->. simpl. rewrite Nat.add_0_r. auto.
  - simpl in Hi. destruct (IH (S start) i Hi) as (H1 & H2 & H3).
    replace (3 * S i) with (S (S (S (3 * i)))) by lia.
    replace (start + S i) with (S start + i) by lia.
    simpl. auto.
Qed.

End Exporter.

(** ** Reasoning on scripts *)

Section Triples.
Context {B : Backend}.

Lemma triple_ret {A} (a : A) (P : session_state -> Prop) Q E :
  (forall s, P s -> Q a s) -> triple P (ret a) Q E.
Proof. intros H c Hc. simpl. auto. Qed.

Lemma triple_bind {A C} (m : script A) (k : A -> script C)
    (P : session_state -> Prop) R Q E :
  triple P m R E -> (forall a, triple (R a) (k a) Q E) -> triple P (bind m k) Q E.
Proof.
  intros Hm Hk c Hc. unfold bind. specialize (Hm c Hc).
  destruct (m c) as [[a| |] c']; [|exact Hm|exact Hm].
  apply Hk, Hm.
Qed.

Lemma triple_weaken {A} (m : script A) (P P' : session_state -> Prop) Q Q' E :
  triple P' m Q' E -> (forall s, P s -> P' s) -> (forall a s, Q' a s -> Q a s) ->
  triple P m Q E.
Proof.
  intros Hm HP HQ c Hc. specialize (Hm c (HP _ Hc)).
  destruct (m c) as [[a| |] c']; auto.
Qed.

Lemma triple_get_ss (P : session_state -> Prop) E :
  triple P get_ss (fun s' s => s' = s /\ P s) E.
Proof. intros c Hc. simpl. auto. Qed.

Lemma triple_put_ss (s : session_state) (P : session_state -> Prop) Q E :
  Q tt s -> triple P (put_ss s) Q E.
Proof. intros H c Hc. simpl. exact H. Qed.

Lemma triple_show (m : message) (P : session_state -> Prop) E :
  triple P (show m) (fun _ => P) E.
Proof. intros c Hc. simpl. exact Hc. Qed.

Lemma triple_return_ {A} (P : session_state -> Prop) (Q : A -> _) :
  triple P return_ Q P.
Proof. intros c Hc. simpl. exact Hc. Qed.

Lemma triple_st_rerun {A} (P : session_state -> Prop) (Q : A -> _) :
  triple P st_rerun Q P.
Proof. intros c Hc. simpl. exact Hc. Qed.

Lemma triple_when (cond : bool) (body : script unit) (P : session_state -> Prop) E :
  triple P body (fun _ => P) E -> triple P (when cond body) (fun _ => P) E.
Proof.
  intros H. destruct cond; [exact H|]. apply triple_ret. auto.
Qed.

Lemma triple_for_each {A S} (l : list A) (acc : S) (body : S -> A -> script S)
    (P : session_state -> Prop) E :
  (forall acc x, triple P (body acc x) (fun _ => P) E) ->
  triple P (for_each l acc body) (fun _ => P) E.
Proof.
  intros Hbody. revert acc. induction l as [|x l IH]; intros acc; simpl.
  - apply triple_ret. auto.
  - eapply triple_bind; [apply Hbody|]. intros acc'. apply IH.
Qed.

Lemma triple_set_page (p : page_name) (P : session_state -> Prop) Q E :
  (forall s, P s -> Q tt {| page := p; images := images s;
                            ingredients := ingredients s; recipes := recipes s |}) ->
  triple P (set_page p) Q E.
Proof. intros H c Hc. simpl. auto. Qed.

Lemma triple_set_images (l : list Image) (P : session_state -> Prop) Q E :
  (forall s, P s -> Q tt {| page := page s; images := l;
                            ingredients := ingredients s; recipes := recipes s |}) ->
  triple P (set_images l) Q E.
Proof. intros H c Hc. simpl. auto. Qed.

Lemma triple_set_ingredients (l : list string) (P : session_state -> Prop) Q E :
  (forall s, P s -> Q tt {| page := page s; images := images s;
                            ingredients := l; recipes := recipes s |}) ->
  triple P (set_ingredients l) Q E.
Proof. intros H c Hc. simpl. auto. Qed.

Lemma triple_set_recipes (l : list string) (P : session_state -> Prop) Q E :
  (forall s, P s -> Q tt {| page := page s; images := images s;
                            ingredients := ingredients s; recipes := l |}) ->
  triple P (set_recipes l) Q E.
Proof. intros H c Hc. simpl. auto. Qed.

Lemma triple_identify_items (l : list Image) (P : session_state -> Prop) E :
  triple P (identify_items l) (fun _ => P) E.
Proof. intros c Hc. rewrite identify_items_trace. exact Hc. Qed.

Lemma triple_generate_multiple_recipes (items : list string) (diet cuisine : string)
    (n : nat) (P : session_state -> Prop) E :
  triple P (generate_multiple_recipes items diet cuisine n) (fun _ => P) E.
Proof. intros c Hc. rewrite generate_multiple_recipes_trace. exact Hc. Qed.

End Triples.

(** ** The invariant of the session *)

Section Invariant.
Context {B : Backend}.

Lemma triple_bind_get {C} (k : session_state -> script C)
    (P : session_state -> Prop) Q E :
  (forall s0, triple P (k s0) Q E) -> triple P (bind get_ss k) Q E.
Proof. intros Hk c Hc. unfold bind, get_ss. apply Hk, Hc. Qed.

Lemma triple_when_to (cond : bool) (body : script unit)
    (P Q : session_state -> Prop) E :
  triple P body (fun _ => Q) E -> (forall s, P s -> Q s) ->
  triple P (when cond body) (fun _ => Q) E.
Proof.
  intros H HPQ. destruct cond; [exact H|]. apply triple_ret. exact HPQ.
Qed.

Lemma is_duplicate_spec (new_image : Image) (existing_images : list Image) :
  is_duplicate new_image existing_images = true
  <-> exists img, img ∈ existing_images /\ image_hash img = image_hash new_image.
Proof.
  induction existing_images as [|img rest IH]; simpl.
  - split; [discriminate|]. intros (x & Hx & _). inversion Hx.
  - destruct (String.eqb_spec (image_hash img) (image_hash new_image)) as [Heq|Hne].
    + split; [|reflexivity]. intros _. exists img. split; [constructor | exact Heq].
    + rewrite IH. split.
      * intros (x & Hx & Hh). exists x. split; [constructor; exact Hx | exact Hh].
      * intros (x & Hx & Hh). inversion Hx; subst; [contradiction|]. eauto.
Qed.

Lemma is_duplicate_false (new_image : Image) (existing_images : list Image) :
  is_duplicate new_image existing_images = false ->
  image_hash new_image ∉ map image_hash existing_images.
Proof.
  intros Hdup Hin. apply list_elem_of_fmap in Hin as (img & Hh & Himg).
  assert (is_duplicate new_image existing_images = true) as Htrue
    by (apply is_duplicate_spec; eauto).
  congruence.
Qed.

Lemma store_distinct_append (new_image : Image) (l : list Image) :
  NoDup (map image_hash l) ->
  is_duplicate new_image l = false ->
  NoDup (map image_hash (l ++ [new_image])).
Proof.
  intros Hl Hdup. rewrite map_app. apply NoDup_app. split; [exact Hl|].
  split; [|apply NoDup_singleton].
  intros h Hh Hin. apply list_elem_of_singleton in Hin as ->.
  exact (is_duplicate_false _ _ Hdup Hh).
Qed.

Lemma append_if_new_ok (new_image : Image) E :
  triple session_ok (append_if_new new_image) (fun _ => session_ok) E.
Proof.
  intros c [Himg Hing]. unfold append_if_new, bind, get_ss.
  destruct (is_duplicate new_image (images (ss c))) eqn:Hdup; simpl.
  - split; assumption.
  - split; [|exact Hing]. unfold store_distinct. simpl.
    apply store_distinct_append; assumption.
Qed.

Lemma home_page_ok (w : widgets) :
  triple session_ok (home_page w) (fun _ => session_ok) session_ok.
Proof.
  apply triple_when. eapply triple_bind; [|intros ?; apply triple_st_rerun].
  apply triple_set_page. intros s Hs. exact Hs.
Qed.

Lemma upload_images_page_ok (w : widgets) :
  triple session_ok (upload_images_page w) (fun _ => session_ok) session_ok.
Proof.
  unfold upload_images_page.
  eapply triple_bind with (R := fun _ => session_ok).
  { unfold upload_images_input. destruct (image_option w).
    - apply triple_when.
      eapply triple_bind with (R := fun _ => session_ok).
      + apply triple_for_each. intros [n d] x.
        eapply triple_bind; [apply append_if_new_ok|].
        intros []; apply triple_ret; auto.
      + intros [n d].
        eapply triple_bind; [apply triple_when, triple_show|].
        intros ?. apply triple_when, triple_show.
    - destruct (camera_input w) as [new_image|]; [|apply triple_ret; auto].
      eapply triple_bind; [apply append_if_new_ok|].
      intros []; apply triple_show. }
  intros ?. eapply triple_bind with (R := fun _ => session_ok).
  { apply triple_bind_get. intros s0. apply triple_when, triple_when.
    eapply triple_bind; [|intros ?; apply triple_st_rerun].
    apply triple_set_images. intros s [_ Hing].
    split; [constructor | exact Hing]. }
  intros ?. eapply triple_bind with (R := fun _ => session_ok).
  { apply triple_when. eapply triple_bind; [|intros ?; apply triple_st_rerun].
    apply triple_set_page. intros s Hs. exact Hs. }
  intros ?. apply triple_when, triple_bind_get. intros s0.
  destruct (negb (nonempty (images s0))); [apply triple_show|].
  eapply triple_bind; [|intros ?; apply triple_st_rerun].
  apply triple_set_page. intros s Hs. exact Hs.
Qed.

Lemma edited_ingredients_normal (text : string) :
  Forall normal_ingredient (edited_ingredients text).
Proof.
  apply Forall_forall. intros x Hx. unfold edited_ingredients in Hx.
  apply list_elem_of_fmap in Hx as (item & -> & Hitem).
  apply list_elem_of_filter in Hitem as [Htruthy Hitem].
  split; [apply strip_idem|]. split; [exact Htruthy|].
  apply has_char_strip.
  exact (proj1 (Forall_forall _ _) (split_segments newline text) item Hitem).
Qed.

(** The edit step gives back a list of normal ingredients it is shown
    unchanged. *)
Lemma edited_ingredients_join (l : list string) :
  Forall normal_ingredient l ->
  edited_ingredients (join (String newline EmptyString) l) = l.
Proof.
  intros Hl. unfold edited_ingredients.
  destruct l as [|x l]; [reflexivity|].
  rewrite split_join; [|discriminate|].
  - induction Hl as [|y k (Hstrip & Htruthy & _) Hk IH]; [reflexivity|].
    rewrite filter_cons_True by (rewrite Hstrip; exact Htruthy).
    simpl. rewrite Hstrip. f_equal. exact IH.
  - eapply Forall_impl; [exact Hl|]. intros y (_ & _ & Hy). exact Hy.
Qed.

Lemma edit_step_ok (w : widgets) E :
  triple store_distinct
    (do s <- get_ss;
     when (nonempty (ingredients s))
       (let ingredients :=
          text_area w (join (String newline EmptyString) (ingredients s)) in
        set_ingredients (edited_ingredients ingredients)))
    (fun _ => session_ok) E.
Proof.
  intros c Hc. unfold bind, get_ss.
  destruct (ingredients (ss c)) eqn:Hing; simpl.
  - split; [exact Hc|]. unfold ingredients_normal. rewrite Hing. constructor.
  - split; [exact Hc|]. apply edited_ingredients_normal.
Qed.

Lemma identify_ingredients_page_ok (w : widgets) :
  triple session_ok (identify_ingredients_page w) (fun _ => session_ok) session_ok.
Proof.
  unfold identify_ingredients_page. apply triple_bind_get. intros s0.
  destruct (negb (nonempty (images s0))).
  { eapply triple_bind; [apply triple_show|]. intros ?. apply triple_return_. }
  eapply triple_bind with (R := fun _ => store_distinct).
  { apply triple_when_to; [|intros s [Hs _]; exact Hs].
    eapply triple_bind with (R := fun _ => session_ok);
      [apply triple_identify_items|].
    intros items. apply triple_set_ingredients. intros s [Hs _]. exact Hs. }
  intros ?. eapply triple_bind; [apply edit_step_ok|].
  intros ?. eapply triple_bind with (R := fun _ => session_ok).
  { apply triple_when. eapply triple_bind; [|intros ?; apply triple_st_rerun].
    apply triple_set_page. intros s Hs. exact Hs. }
  intros ?. apply triple_when, triple_bind_get. intros s1.
  destruct (negb (nonempty (ingredients s1))); [apply triple_show|].
  eapply triple_bind; [|intros ?; apply triple_st_rerun].
  apply triple_set_page. intros s Hs. exact Hs.
Qed.

Lemma generate_recipe_page_ok (w : widgets) :
  triple session_ok (generate_recipe_page w) (fun _ => session_ok) session_ok.
Proof.
  unfold generate_recipe_page. apply triple_bind_get. intros s0.
  destruct (negb (nonempty (ingredients s0))).
  { eapply triple_bind; [apply triple_show|]. intros ?. apply triple_return_. }
  cbv zeta.
  eapply triple_bind with (R := fun _ => session_ok).
  { apply triple_when.
    eapply triple_bind with (R := fun _ => session_ok);
      [apply triple_generate_multiple_recipes|].
    intros l. apply triple_set_recipes. intros s Hs. exact Hs. }
  intros ?. eapply triple_bind with (R := fun _ => session_ok).
  { apply triple_bind_get. intros s1. apply triple_when.
    eapply triple_bind with (R := fun _ => session_ok); [|intros ?; apply triple_show].
    apply triple_for_each. intros ? entry. apply triple_show. }
  intros ?. apply triple_when.
  eapply triple_bind; [|intros ?; apply triple_st_rerun].
  apply triple_set_page. intros s Hs. exact Hs.
Qed.

Lemma main_ok (w : widgets) :
  triple session_ok (main w) (fun _ => session_ok) session_ok.
Proof.
  unfold main. apply triple_bind_get. intros s0. cbv zeta.
  eapply triple_bind with (R := fun _ => session_ok).
  { apply triple_when. eapply triple_bind; [|intros ?; apply triple_st_rerun].
    apply triple_set_page. intros s Hs. exact Hs. }
  intros ?. apply triple_bind_get. intros s1.
  destruct (page s1).
  - apply home_page_ok.
  - apply upload_images_page_ok.
  - apply identify_ingredients_page_ok.
  - apply generate_recipe_page_ok.
Qed.

Lemma run_once_ok (w : widgets) (sw : session_state * World) :
  session_ok sw.1 -> session_ok (run_once w sw).1.
Proof.
  intros H. unfold run_once.
  pose proof (main_ok w {| ss := sw.1; world := sw.2; log := [] |} H) as Hm.
  destruct (main w _) as [[[]| |] c']; exact Hm.
Qed.

Lemma init_session_state_ok : session_ok init_session_state.
Proof. split; [constructor | constructor]. Qed.

Lemma run_session_ok (events : list widgets) (w0 : World) :
  session_ok (run_session events w0).1.
Proof.
  unfold run_session.
  induction events as [|w events IH] using rev_ind; simpl.
  - apply init_session_state_ok.
  - rewrite foldl_app. simpl. apply run_once_ok, IH.
Qed.

End Invariant.

(** ** Claims on the wizard *)

Section Wizard.
Context {B : Backend}.

(** C1.  In a run in which only "Next" is clicked: on the upload page
    with an empty image store and nothing pending in the camera or the
    uploader, the run shows the validation error and ends with the
    session, and so the page, as it was; on the identify page with no
    ingredients, the run shows the validation error (or, with no image
    either, the warning that stands in for the page) and ends with the
    session as it was.  In neither case does the script rerun. *)
Theorem forward_without_data_rejected (w : widgets) (c : ctx) :
  sidebar_radio w = None ->
  (page (ss c) = Upload_Images -> images (ss c) = [] ->
   camera_input w = None -> file_uploader w = [] ->
   back_to_home w = false -> to_identify w = true ->
   main w c
   = (Continue tt,
      {| ss := ss c; world := world c;
         log := log c ++ [st_error "Please upload at least one image before proceeding."] |}))
  /\ (page (ss c) = Identify_Ingredients -> ingredients (ss c) = [] ->
      identify_button w = false -> back_to_upload w = false ->
      to_generate w = true ->
      main w c
      = if nonempty (images (ss c))
        then (Continue tt,
              {| ss := ss c; world := world c;
                 log := log c ++ [st_error "Please identify ingredients before proceeding."] |})
        else (Return,
              {| ss := ss c; world := world c;
                 log := log c ++ [st_warning "Please upload images of your fridge contents first."] |})).
Proof.
  intros Hside. destruct c as [[pg imgs ings recs] wld lg]. simpl.
  split.
  - intros -> -> Hcam Hfiles Hback Hnext.
    unfold main, bind, get_ss. simpl. rewrite Hside. simpl.
    unfold upload_images_page, upload_images_input, bind.
    rewrite Hcam, Hfiles, Hback, Hnext.
    destruct (image_option w); reflexivity.
  - intros -> -> Hid Hback Hnext.
    unfold main, bind, get_ss. simpl. rewrite Hside. simpl.
    unfold identify_ingredients_page, bind. simpl.
    rewrite Hid, Hback, Hnext.
    destruct imgs; reflexivity.
Qed.

Lemma append_if_new_duplicate (new_image : Image) (c : ctx) :
  is_duplicate new_image (images (ss c)) = true ->
  append_if_new new_image c = (Continue false, c).
Proof.
  intros Hdup. unfold append_if_new, bind, get_ss. rewrite Hdup. reflexivity.
Qed.

Lemma upload_loop_duplicates (files : list Image) (n d : nat) (c : ctx) :
  Forall (fun new_image => is_duplicate new_image (images (ss c)) = true) files ->
  for_each files (n, d)
    (fun '(new_images, duplicates) new_image =>
       do added <- append_if_new new_image;
       if added then ret (new_images + 1, duplicates)
       else ret (new_images, duplicates + 1)) c
  = (Continue (n, d + length files), c).
Proof.
  intros Hfiles. revert d.
  induction Hfiles as [|f files Hf Hfiles IH]; intros d; simpl.
  - rewrite Nat.add_0_r. reflexivity.
  - unfold bind at 1. unfold bind at 1. rewrite append_if_new_duplicate by exact Hf.
    unfold ret at 1. rewrite IH. do 3 f_equal. lia.
Qed.

(** With nothing new in its widgets, the first part of the upload page
    only shows messages. *)
Lemma upload_images_input_nothing_new (w : widgets) (c : ctx) :
  nothing_new w (images (ss c)) ->
  exists shown,
    upload_images_input w c
    = (Continue tt, {| ss := ss c; world := world c; log := log c ++ shown |}).
Proof.
  unfold nothing_new, upload_images_input. intros Hnew.
  destruct (image_option w).
  - destruct (file_uploader w) as [|f files] eqn:Hfiles.
    + exists []. destruct c; simpl. rewrite app_nil_r. reflexivity.
    + exists [st_info_duplicates (length (f :: files))].
      unfold when at 1. unfold nonempty. unfold bind at 1.
      rewrite upload_loop_duplicates by exact Hnew. reflexivity.
  - destruct (camera_input w) as [new_image|].
    + exists [st_warning "This image is a duplicate and was not added."].
      unfold bind. rewrite append_if_new_duplicate by auto. reflexivity.
    + exists []. destruct c; simpl. rewrite app_nil_r. reflexivity.
Qed.

(** C2.  In every session, whatever is uploaded, captured or cleared and
    whatever the model answers, no two images of the store have the same
    fingerprint, so the store holds at most one image of any
    fingerprint.  [is_duplicate] is true iff an image of the store has
    the fingerprint of the new one; and a run of the upload page whose
    widgets hold only images with a fingerprint of the store leaves the
    store as it is (unless "Clear All Images" is clicked). *)
Theorem image_store_has_no_duplicates (events : list widgets) (w0 : World) :
  let s := (run_session events w0).1 in
  NoDup (map image_hash (images s))
  /\ (forall h, length (filter (fun img => image_hash img = h) (images s)) <= 1)
  /\ (forall new_image existing_images,
      is_duplicate new_image existing_images = true
      <-> exists img, img ∈ existing_images
                      /\ image_hash img = image_hash new_image)
  /\ (forall new_image c,
      is_duplicate new_image (images (ss c)) = true ->
      append_if_new new_image c = (Continue false, c))
  /\ (forall w c,
      nothing_new w (images (ss c)) -> clear_all_images w = false ->
      images (ss (upload_images_page w c).2) = images (ss c)).
Proof.
  intros s. assert (Hok : NoDup (map image_hash (images s)))
    by apply run_session_ok.
  split; [exact Hok|]. split.
  { intros h. clear -Hok. induction (images s) as [|img l IH]; simpl; [lia|].
    inversion Hok as [|? ? Hnotin Hl]; subst.
    destruct (decide (image_hash img = h)) as [Heq|Hne].
    - rewrite filter_cons_True by exact Heq. simpl.
      destruct (filter (fun img0 => image_hash img0 = h) l) as [|x xs] eqn:Hf;
        [simpl; lia|].
      assert (Hx : x ∈ filter (fun img0 => image_hash img0 = h) l)
        by (rewrite Hf; constructor).
      apply list_elem_of_filter in Hx as [Hxh Hx]. exfalso. apply Hnotin.
      rewrite Heq, <- Hxh. apply list_elem_of_fmap. eauto.
    - rewrite filter_cons_False by exact Hne. apply IH, Hl. }
  split; [apply is_duplicate_spec|].
  split; [apply append_if_new_duplicate|].
  intros w c Hnew Hclear. unfold upload_images_page.
  destruct (upload_images_input_nothing_new w c Hnew) as [shown Hinput].
  unfold bind at 1. rewrite Hinput. unfold bind, get_ss. simpl.
  rewrite Hclear.
  destruct (nonempty (images (ss c))) eqn:Hne, (back_to_home w), (to_identify w);
    simpl; rewrite ?Hne; reflexivity.
Qed.

Lemma for_each_show {A} (l : list A) (f : A -> message) (c : ctx) :
  for_each l tt (fun _ x => show (f x)) c
  = (Continue tt, {| ss := ss c; world := world c; log := log c ++ map f l |}).
Proof.
  revert c. induction l as [|x l IH]; intros c; simpl.
  - destruct c; simpl. unfold ret. rewrite app_nil_r. reflexivity.
  - unfold bind, show. rewrite IH. simpl. rewrite <- app_assoc. reflexivity.
Qed.

(** C3.  In every session, a run in which only a "Back" button is
    clicked ends in a rerun with the page set to the previous one and
    the image store, the ingredients, the recipes and the world as they
    were: from the recipe page to the identify page, from the identify
    page to the upload page (the text area returning the text it
    shows), from the upload page to the home page (its widgets holding
    nothing new); and so does a run in which another page is picked in
    the sidebar.  The first two buttons are on their page only when the
    session has ingredients, resp. images. *)
Theorem backward_keeps_data (events : list widgets) (w0 : World)
    (w : widgets) (shown : list message) :
  let s := (run_session events w0).1 in
  let c := {| ss := s; world := (run_session events w0).2; log := shown |} in
  let lines := join (String newline EmptyString) (ingredients s) in
  (page s = Generate_Recipe -> sidebar_radio w = None ->
   ingredients s <> [] -> generate_button w = false ->
   back_to_ingredients w = true ->
   exists shown',
     main w c = (Rerun, {| ss := with_page Identify_Ingredients s;
                           world := world c; log := shown' |}))
  /\ (page s = Identify_Ingredients -> sidebar_radio w = None ->
      images s <> [] -> identify_button w = false ->
      text_area w lines = lines -> back_to_upload w = true ->
      main w c = (Rerun, {| ss := with_page Upload_Images s;
                            world := world c; log := shown |}))
  /\ (page s = Upload_Images -> sidebar_radio w = None ->
      nothing_new w (images s) -> clear_all_images w = false ->
      back_to_home w = true ->
      exists shown',
        main w c = (Rerun, {| ss := with_page Home s;
                              world := world c; log := shown' |}))
  /\ (forall p, sidebar_radio w = Some p -> p <> page s ->
      main w c = (Rerun, {| ss := with_page p s;
                            world := world c; log := shown |})).
Proof.
  intros s c lines. subst c lines.
  assert (Hok : session_ok s) by apply run_session_ok.
  generalize (run_session events w0).2. intros wld.
  clearbody s. destruct s as [pg imgs ings recs]. simpl.
  split; [|split; [|split]].
  - intros -> Hside Hing Hgen Hback.
    unfold main, bind, get_ss. simpl. rewrite Hside. simpl.
    unfold generate_recipe_page, bind, get_ss. simpl.
    destruct ings as [|x ings]; [contradiction|]. simpl.
    rewrite Hgen, Hback. simpl.
    destruct recs as [|r recs]; [eexists; reflexivity|].
    cbv [when nonempty]. rewrite for_each_show.
    eexists. reflexivity.
  - intros -> Hside Himg Hid Hedit Hback.
    unfold main, bind, get_ss. simpl. rewrite Hside. simpl.
    unfold identify_ingredients_page, bind, get_ss. simpl.
    destruct imgs as [|img imgs]; [contradiction|]. simpl.
    rewrite Hid, Hback. simpl.
    destruct ings as [|x ings]; [reflexivity|].
    simpl nonempty. unfold when at 1. cbv zeta.
    rewrite Hedit, edited_ingredients_join by apply Hok. reflexivity.
  - intros -> Hside Hnew Hclear Hback.
    unfold main, bind, get_ss. simpl. rewrite Hside. simpl.
    unfold upload_images_page.
    match goal with
    | |- context [_ ?c0 = (Rerun, _)] =>
        destruct (upload_images_input_nothing_new w c0 Hnew) as [shown' Hinput]
    end.
    exists (shown ++ shown').
    unfold bind at 1. rewrite Hinput. unfold bind, get_ss. simpl.
    rewrite Hclear, Hback.
    destruct (nonempty imgs); reflexivity.
  - intros p Hside Hp.
    unfold main, bind, get_ss. simpl. rewrite Hside. simpl.
    rewrite bool_decide_eq_false_2 by exact Hp. reflexivity.
Qed.

(** Shown a list of trimmed one-line entries and left unedited, the
    text area gives the list back without its empty entry. *)
Lemma edited_ingredients_unedited (l : list string) :
  Forall (fun x => strip x = x /\ has_char newline x = false) l ->
  edited_ingredients (join (String newline EmptyString) l)
  = filter (fun x => truthy x = true) l.
Proof.
  intros Hl. unfold edited_ingredients.
  destruct l as [|x l]; [reflexivity|].
  rewrite split_join; [|discriminate|].
  - induction Hl as [|y k [Hstrip _] Hk IH]; [reflexivity|].
    destruct (truthy y) eqn:Hy.
    + rewrite !filter_cons_True by (rewrite ?Hstrip; exact Hy).
      simpl. rewrite Hstrip. f_equal. exact IH.
    + rewrite !filter_cons_False by (rewrite ?Hstrip, Hy; discriminate).
      exact IH.
  - eapply Forall_impl; [exact Hl|]. intros y [_ Hy]. exact Hy.
Qed.

Lemma NoDup_occurs_once (l : list string) (x : string) :
  NoDup l -> x ∈ l -> length (filter (fun y => y = x) l) = 1.
Proof.
  induction 1 as [|y l Hy Hl IH]; intros Hx; [inversion Hx|].
  destruct (decide (y = x)) as [->|Hne].
  - rewrite filter_cons_True by reflexivity. simpl. f_equal.
    destruct (filter (fun y => y = x) l) as [|z zs] eqn:Hf; [reflexivity|].
    assert (Hz : z ∈ filter (fun y => y = x) l) by (rewrite Hf; constructor).
    apply list_elem_of_filter in Hz as [-> Hz]. contradiction.
  - rewrite filter_cons_False by exact Hne. apply IH.
    inversion Hx; subst; [contradiction | assumption].
Qed.

(** C6, as the code has it.  The result of [identify_items] has no
    duplicate under exact string equality: an item the responses hold,
    in one image or in several, is in it exactly once.  The edit step
    removes no duplicate: it keeps the collection duplicate-free when
    the text is left as shown and no entry holds a line break (only the
    empty entry goes), and it hands back a normal list as it is. *)
Theorem ingredients_deduplicated_by_identify (images : list Image) (c : ctx) :
  let rs := (vision_trace images (world c)).1 in
  exists r c',
    identify_items images c = (Continue r, c')
    /\ NoDup r
    /\ (forall text seg, Text text ∈ rs -> seg ∈ split comma text ->
        length (filter (fun y => y = strip seg) r) = 1)
    /\ (forall l : list string,
        NoDup l ->
        Forall (fun x => strip x = x /\ has_char newline x = false) l ->
        edited_ingredients (join (String newline EmptyString) l)
        = filter (fun x => truthy x = true) l
        /\ NoDup (edited_ingredients (join (String newline EmptyString) l)))
    /\ (forall l : list string,
        Forall normal_ingredient l ->
        edited_ingredients (join (String newline EmptyString) l) = l).
Proof.
  intros rs. eexists _, _. split; [apply identify_items_trace|].
  assert (Hnodup : NoDup (elements (list_to_set (flat_map items_of rs) : gset string)))
    by apply NoDup_elements.
  split; [exact Hnodup|]. split; [|split].
  - intros text seg Htext Hseg. apply NoDup_occurs_once; [exact Hnodup|].
    apply identify_items_elem. eauto.
  - intros l Hl Hall. rewrite edited_ingredients_unedited by exact Hall.
    split; [reflexivity|]. apply NoDup_filter, Hl.
  - apply edited_ingredients_join.
Qed.

End Wizard.

(** ** The claims on the demo *)

Section Demo.

Example split_keeps_empty_segments :
  split comma "Milk, Eggs,,Butter " = ["Milk"; " Eggs"; EmptyString; "Butter "].
Proof. reflexivity. Qed.

Example split_of_empty_text : split comma EmptyString = [EmptyString].
Proof. reflexivity. Qed.

Example strip_both_ends : strip "  a b  " = "a b".
Proof. reflexivity. Qed.

Example lower_vegan : lower "Vegan" = "vegan".
Proof. reflexivity. Qed.

Example same_picture_again_store :
  images (run_session (B := demo) same_picture_again []).1 = [1; 2].
Proof. vm_compute. reflexivity. Qed.

Lemma forward_without_data_rejected_witness :
  main (B := demo) (demo_event None None [] [To_identify] None)
       (demo_at (demo_session Upload_Images [] [] []) [])
  = (Continue tt,
     @Build_ctx demo (demo_session Upload_Images [] [] []) []
       [st_error "Please upload at least one image before proceeding."])
  /\ main (B := demo) (demo_event None None [] [To_generate] None)
          (demo_at (demo_session Identify_Ingredients [1] [] []) [])
     = (Continue tt,
        @Build_ctx demo (demo_session Identify_Ingredients [1] [] []) []
          [st_error "Please identify ingredients before proceeding."]).
Proof.
  split.
  - apply (proj1 (forward_without_data_rejected (B := demo)
                    (demo_event None None [] [To_identify] None)
                    (demo_at (demo_session Upload_Images [] [] []) [])
                    eq_refl)); reflexivity.
  - apply (proj2 (forward_without_data_rejected (B := demo)
                    (demo_event None None [] [To_generate] None)
                    (demo_at (demo_session Identify_Ingredients [1] [] []) [])
                    eq_refl)); reflexivity.
Defined.

Lemma image_store_has_no_duplicates_witness :
  NoDup (map (image_hash (B := demo))
             (images (run_session (B := demo) same_picture_again []).1))
  /\ is_duplicate (B := demo) 11 [1; 2] = true.
Proof.
  destruct (image_store_has_no_duplicates (B := demo) same_picture_again [])
    as (Hnodup & _ & Hdup & _).
  split; [exact Hnodup|].
  apply Hdup. exists 1. split; [constructor | reflexivity].
Defined.

Lemma backward_keeps_data_witness :
  main (B := demo) (demo_event None None [1] [Back_to_upload] None)
       (@Build_ctx demo (run_session (B := demo) identified [Text "Milk, Eggs"]).1
                        (run_session (B := demo) identified [Text "Milk, Eggs"]).2 [])
  = (Rerun,
     @Build_ctx demo
       (with_page Upload_Images
          (run_session (B := demo) identified [Text "Milk, Eggs"]).1)
       (run_session (B := demo) identified [Text "Milk, Eggs"]).2 []).
Proof.
  apply (proj1 (proj2 (backward_keeps_data (B := demo) identified [Text "Milk, Eggs"]
                         (demo_event None None [1] [Back_to_upload] None) []))).
  - vm_compute. reflexivity.
  - reflexivity.
  - vm_compute. discriminate.
  - reflexivity.
  - reflexivity.
  - reflexivity.
Defined.

(** On the response "Milk,,Eggs" the result of [identify_items] holds
    the empty string. *)
Lemma identify_items_keeps_empty_segment :
  ~ (forall r c',
       identify_items (B := demo) [1] (demo_ctx [Text "Milk,,Eggs"]) = (Continue r, c') ->
       forall x, x ∈ r -> strip x = x /\ x <> EmptyString).
Proof.
  intros H.
  assert (E : identify_items (B := demo) [1] (demo_ctx [Text "Milk,,Eggs"])
              = (Continue ["Milk"; "Eggs"; EmptyString],
                 @Build_ctx demo init_session_state [] []))
    by (vm_compute; reflexivity).
  destruct (H _ _ E EmptyString) as [_ Hne]; [repeat constructor|].
  apply Hne. reflexivity.
Qed.

(** After the user types a second line "Milk", the ingredients of the
    session hold "Milk" twice. *)
Lemma edit_step_keeps_typed_duplicate :
  ~ NoDup (ingredients (run_session (B := demo) milk_twice [Text "Milk"]).1).
Proof.
  assert (E : ingredients (run_session (B := demo) milk_twice [Text "Milk"]).1
              = ["Milk"; "Milk"]) by (vm_compute; reflexivity).
  rewrite E. intros H. inversion H as [|? ? Hnotin _]; subst.
  apply Hnotin. constructor.
Qed.

End Demo.

(** * Further properties of the code *)

(** ** The upload loop *)

Section UploadLoop.
Context {B : Backend}.

Lemma grown_nil (c : ctx) : grown c [] [] = c.
Proof.
  destruct c as [[pg imgs ings recs] wld lg]. unfold grown, with_images. simpl.
  rewrite !app_nil_r. reflexivity.
Qed.

Lemma grown_grown (c : ctx) (a b : list Image) (x y : list message) :
  grown (grown c a x) b y = grown c (a ++ b) (x ++ y).
Proof.
  unfold grown, with_images. simpl. rewrite !app_assoc. reflexivity.
Qed.

Lemma append_if_new_fresh (new_image : Image) (c : ctx) :
  is_duplicate new_image (images (ss c)) = false ->
  append_if_new new_image c = (Continue true, grown c [new_image] []).
Proof.
  intros Hdup. unfold append_if_new, bind, get_ss. rewrite Hdup. simpl.
  unfold grown, with_images. rewrite app_nil_r. reflexivity.
Qed.

Lemma is_duplicate_app (new_image : Image) (l k : list Image) :
  is_duplicate new_image l = true -> is_duplicate new_image (l ++ k) = true.
Proof.
  rewrite !is_duplicate_spec. intros (img & Himg & Hh).
  exists img. split; [apply elem_of_app; left; exact Himg | exact Hh].
Qed.

Lemma is_duplicate_self (new_image : Image) (l k : list Image) :
  is_duplicate new_image (l ++ new_image :: k) = true.
Proof.
  apply is_duplicate_spec. exists new_image.
  split; [apply elem_of_app; right; constructor | reflexivity].
Qed.

Lemma new_images_of_sublist (store files : list Image) :
  sublist (new_images_of store files) files.
Proof.
  revert store. induction files as [|f rest IH]; intros store; simpl.
  - constructor.
  - destruct (is_duplicate f store).
    + apply sublist_cons, IH.
    + apply sublist_skip, IH.
Qed.

Lemma new_images_of_covers (store files : list Image) :
  Forall (fun f => is_duplicate f (store ++ new_images_of store files) = true)
         files.
Proof.
  revert store. induction files as [|f rest IH]; intros store; simpl;
    [constructor|].
  destruct (is_duplicate f store) eqn:Hdup.
  - constructor; [apply is_duplicate_app, Hdup | apply IH].
  - constructor; [apply is_duplicate_self|].
    specialize (IH (store ++ [f])). rewrite <- app_assoc in IH. exact IH.
Qed.

Lemma new_images_of_distinct (store files : list Image) :
  NoDup (map image_hash store) ->
  NoDup (map image_hash (store ++ new_images_of store files)).
Proof.
  revert store. induction files as [|f rest IH]; intros store Hstore; simpl.
  - rewrite app_nil_r. exact Hstore.
  - destruct (is_duplicate f store) eqn:Hdup; [apply IH, Hstore|].
    specialize (IH (store ++ [f]) (store_distinct_append _ _ Hstore Hdup)).
    rewrite <- app_assoc in IH. exact IH.
Qed.

Lemma new_images_of_duplicates (store files : list Image) :
  Forall (fun f => is_duplicate f store = true) files ->
  new_images_of store files = [].
Proof.
  induction 1 as [|f rest Hf _ IH]; simpl; [reflexivity|].
  rewrite Hf. exact IH.
Qed.

(** The loop of the upload branch appends the new files in order and
    counts what it appends and what it skips. *)
Lemma upload_loop_result (files : list Image) (n d : nat) (c : ctx) :
  let added := new_images_of (images (ss c)) files in
  for_each files (n, d)
    (fun '(new_images, duplicates) new_image =>
       do added <- append_if_new new_image;
       if added then ret (new_images + 1, duplicates)
       else ret (new_images, duplicates + 1)) c
  = (Continue (n + length added, d + (length files - length added)),
     grown c added []).
Proof.
  revert n d c. induction files as [|f rest IH]; intros n d c; simpl.
  - rewrite grown_nil, !Nat.add_0_r. reflexivity.
  - unfold bind at 1. unfold bind at 1.
    destruct (is_duplicate f (images (ss c))) eqn:Hdup.
    + rewrite append_if_new_duplicate by exact Hdup. unfold ret at 1.
      rewrite IH.
      pose proof (sublist_length _ _ (new_images_of_sublist (images (ss c)) rest)).
      do 3 f_equal. lia.
    + rewrite append_if_new_fresh by exact Hdup. unfold ret at 1.
      rewrite IH. rewrite grown_grown. simpl.
      do 3 f_equal; lia.
Qed.

Lemma upload_images_input_upload (w : widgets) (c : ctx) :
  image_option w = Upload_Images_option ->
  let files := file_uploader w in
  let added := new_images_of (images (ss c)) files in
  upload_images_input w c
  = (Continue tt,
     grown c added (upload_messages (length added) (length files - length added))).
Proof.
  intros Hopt files added. unfold upload_images_input. rewrite Hopt.
  subst files added. destruct (file_uploader w) as [|f rest] eqn:Hfiles.
  - simpl. unfold ret. rewrite grown_nil. reflexivity.
  - unfold when at 1, nonempty. unfold bind at 1.
    rewrite upload_loop_result. cbv beta iota zeta. rewrite !Nat.add_0_l.
    generalize (new_images_of (images (ss c)) (f :: rest)). intros added.
    generalize (length (f :: rest) - length added). intros nd.
    unfold upload_messages, bind.
    destruct (0 <? length added)%nat, (0 <? nd)%nat;
      unfold when, show, ret, grown; simpl;
      rewrite ?app_nil_r, <- ?app_assoc; reflexivity.
Qed.

Lemma upload_images_input_camera (w : widgets) (c : ctx) :
  image_option w = Take_Pictures_option ->
  upload_images_input w c
  = (Continue tt,
     match camera_input w with
     | None => c
     | Some new_image =>
         if is_duplicate new_image (images (ss c))
         then grown c [] [st_warning "This image is a duplicate and was not added."]
         else grown c [new_image] [st_success_image_added]
     end).
Proof.
  intros Hopt. unfold upload_images_input. rewrite Hopt.
  destruct (camera_input w) as [new_image|]; [|reflexivity].
  unfold bind.
  destruct (is_duplicate new_image (images (ss c))) eqn:Hdup.
  - rewrite append_if_new_duplicate by exact Hdup. unfold show, grown, with_images.
    destruct c as [[pg imgs ings recs] wld lg]. simpl. rewrite app_nil_r. reflexivity.
  - rewrite append_if_new_fresh by exact Hdup. unfold show, grown, with_images.
    simpl. rewrite app_nil_r. reflexivity.
Qed.

End UploadLoop.

Section UploadPage.
Context {B : Backend}.

Lemma is_duplicate_app_false (new_image : Image) (l k : list Image) :
  is_duplicate new_image (l ++ k) = false -> is_duplicate new_image l = false.
Proof.
  intros H. destruct (is_duplicate new_image l) eqn:Hl; [|reflexivity].
  rewrite (is_duplicate_app _ _ k Hl) in H. discriminate.
Qed.

Lemma new_images_of_fresh (store files : list Image) (f : Image) :
  f ∈ new_images_of store files -> is_duplicate f store = false.
Proof.
  revert store. induction files as [|g rest IH]; intros store; simpl.
  - intros H. inversion H.
  - destruct (is_duplicate g store) eqn:Hdup; [apply IH|].
    intros H. apply elem_of_cons in H as [->|H]; [exact Hdup|].
    eapply is_duplicate_app_false, IH, H.
Qed.

Lemma new_images_of_apart (store files : list Image) :
  NoDup (map image_hash (new_images_of store files)).
Proof.
  revert store. induction files as [|g rest IH]; intros store; simpl.
  - constructor.
  - destruct (is_duplicate g store) eqn:Hdup; [apply IH|].
    simpl. constructor; [|apply IH].
    intros Hin. apply list_elem_of_fmap in Hin as (f & Hh & Hf).
    apply new_images_of_fresh in Hf.
    assert (is_duplicate f (store ++ [g]) = true) as Htrue.
    { apply is_duplicate_spec. exists g.
      split; [apply elem_of_app; right; constructor | exact Hh]. }
    congruence.
Qed.

Lemma upload_images_input_grown (w : widgets) (c : ctx) :
  exists added shown,
    upload_images_input w c = (Continue tt, grown c added shown)
    /\ nothing_new w (images (ss c) ++ added).
Proof.
  destruct (image_option w) eqn:Hopt.
  - eexists _, _. split; [apply upload_images_input_upload, Hopt|].
    unfold nothing_new. rewrite Hopt. apply new_images_of_covers.
  - rewrite upload_images_input_camera by exact Hopt.
    unfold nothing_new. rewrite Hopt.
    destruct (camera_input w) as [new_image|].
    + destruct (is_duplicate new_image (images (ss c))) eqn:Hdup.
      * eexists [], _. split; [reflexivity|]. intros x [= <-].
        rewrite app_nil_r. exact Hdup.
      * eexists [new_image], _. split; [reflexivity|]. intros x [= <-].
        apply is_duplicate_self.
    + exists [], []. rewrite grown_nil. split; [reflexivity | discriminate].
Qed.

(** X2.  After the first part of the upload page has run, every image
    its widgets hold has its fingerprint in the store, so running it
    again on the same widgets, as each rerun of the script does, leaves
    the session and the world as they are. *)
Theorem upload_again_changes_nothing (w : widgets) (c : ctx) :
  let c1 := (upload_images_input w c).2 in
  nothing_new w (images (ss c1))
  /\ ss (upload_images_input w c1).2 = ss c1
  /\ world (upload_images_input w c1).2 = world c1.
Proof.
  intros c1. subst c1.
  destruct (upload_images_input_grown w c) as (added & shown & Heq & Hnew).
  rewrite Heq. simpl.
  assert (Hnew' : nothing_new w (images (ss (grown c added shown)))) by exact Hnew.
  split; [exact Hnew|].
  destruct (upload_images_input_nothing_new w _ Hnew') as [shown' ->].
  split; reflexivity.
Qed.

(** The rest of the upload page, after its first part. *)
Lemma upload_images_page_after_input (w : widgets) (c c1 : ctx) :
  upload_images_input w c = (Continue tt, c1) ->
  upload_images_page w c
  = if nonempty (images (ss c1)) && clear_all_images w
    then (Rerun, {| ss := with_images [] (ss c1); world := world c1; log := log c1 |})
    else if back_to_home w
    then (Rerun, {| ss := with_page Home (ss c1); world := world c1; log := log c1 |})
    else if to_identify w
    then if nonempty (images (ss c1))
         then (Rerun, {| ss := with_page Identify_Ingredients (ss c1);
                         world := world c1; log := log c1 |})
         else (Continue tt,
               {| ss := ss c1; world := world c1;
                  log := log c1
                         ++ [st_error "Please upload at least one image before proceeding."] |})
    else (Continue tt, c1).
Proof.
  intros Hinput. unfold upload_images_page. unfold bind at 1. rewrite Hinput.
  unfold bind, get_ss. destruct c1 as [[pg imgs ings recs] wld lg]. simpl.
  destruct imgs, (clear_all_images w), (back_to_home w), (to_identify w);
    reflexivity.
Qed.

(** X3.  Unless "Clear All Images" is clicked, a run of the upload page
    keeps every stored image in its place, adding images only at the
    end of the store; it leaves the ingredients, the recipes and the
    world as they were. *)
Theorem upload_page_only_appends (w : widgets) (c : ctx) :
  clear_all_images w = false ->
  exists added,
    images (ss (upload_images_page w c).2) = images (ss c) ++ added
    /\ ingredients (ss (upload_images_page w c).2) = ingredients (ss c)
    /\ recipes (ss (upload_images_page w c).2) = recipes (ss c)
    /\ world (upload_images_page w c).2 = world c.
Proof.
  intros Hclear.
  destruct (upload_images_input_grown w c) as (added & shown & Heq & _).
  exists added. rewrite (upload_images_page_after_input _ _ _ Heq), Hclear.
  rewrite andb_false_r.
  destruct (back_to_home w), (to_identify w),
    (nonempty (images (ss (grown c added shown)))); simpl; auto.
Qed.

(** X4.  A click on "Clear All Images" with a store that is not empty
    ends the run in a rerun with the store emptied; the page, the
    ingredients identified from the cleared images and the recipes stay
    as they were, and the other buttons of the run have no effect. *)
Theorem clear_all_images_keeps_ingredients (w : widgets) (c : ctx) :
  clear_all_images w = true ->
  images (ss c) <> [] ->
  (upload_images_page w c).1 = Rerun
  /\ ss (upload_images_page w c).2 = with_images [] (ss c)
  /\ world (upload_images_page w c).2 = world c.
Proof.
  intros Hclear Hne.
  destruct (upload_images_input_grown w c) as (added & shown & Heq & _).
  rewrite (upload_images_page_after_input _ _ _ Heq), Hclear.
  destruct (images (ss c)) as [|img imgs] eqn:Himgs; [contradiction|].
  unfold grown. simpl. rewrite Himgs. simpl. auto.
Qed.

End UploadPage.

(** ** Runs of [main] *)

Section Runs.
Context {B : Backend}.

Lemma main_no_jump (w : widgets) (c : ctx) :
  sidebar_radio w = None ->
  main w c
  = match page (ss c) with
    | Home => home_page w c
    | Upload_Images => upload_images_page w c
    | Identify_Ingredients => identify_ingredients_page w c
    | Generate_Recipe => generate_recipe_page w c
    end.
Proof.
  intros Hside. unfold main. unfold bind at 1. unfold get_ss at 1.
  rewrite Hside. simpl. rewrite bool_decide_eq_true_2 by reflexivity.
  unfold bind, when, ret, get_ss. simpl.
  destruct (page (ss c)); reflexivity.
Qed.

Lemma main_jump (w : widgets) (c : ctx) (p : page_name) :
  sidebar_radio w = Some p -> p <> page (ss c) ->
  main w c = (Rerun, {| ss := with_page p (ss c); world := world c; log := log c |}).
Proof.
  intros Hside Hp. unfold main. unfold bind at 1. unfold get_ss at 1.
  rewrite Hside. simpl. rewrite bool_decide_eq_false_2 by exact Hp.
  reflexivity.
Qed.

Lemma upload_images_page_store (w : widgets) (c : ctx) :
  image_option w = Upload_Images_option ->
  clear_all_images w = false ->
  images (ss (upload_images_page w c).2)
  = images (ss c) ++ new_images_of (images (ss c)) (file_uploader w).
Proof.
  intros Hopt Hclear.
  pose proof (upload_images_input_upload w c Hopt) as Heq. cbv zeta in Heq.
  rewrite (upload_images_page_after_input _ _ _ Heq), Hclear, andb_false_r.
  match goal with
  | |- context [nonempty ?l] => destruct (nonempty l)
  end; destruct (back_to_home w), (to_identify w); reflexivity.
Qed.

(** X5.  The store emptied by "Clear All Images" fills again in the
    rerun that follows when the uploader still holds files: in the run
    after the click the upload loop starts from the empty store and
    appends the files of the uploader, so the store is empty after it
    only when the uploader is. *)
Theorem cleared_store_refills_from_uploader (w w' : widgets) (c : ctx) :
  page (ss c) = Upload_Images ->
  sidebar_radio w = None -> sidebar_radio w' = None ->
  images (ss c) <> [] ->
  clear_all_images w = true ->
  image_option w' = Upload_Images_option ->
  clear_all_images w' = false ->
  (main w c).1 = Rerun
  /\ images (ss (main w c).2) = []
  /\ images (ss (main w' (main w c).2).2) = new_images_of [] (file_uploader w')
  /\ (file_uploader w' <> [] -> images (ss (main w' (main w c).2).2) <> []).
Proof.
  intros Hpage Hside Hside' Hne Hclear Hopt' Hclear'.
  rewrite (main_no_jump w c Hside), Hpage.
  destruct (upload_images_input_grown w c) as (added & shown & Heq & _).
  rewrite (upload_images_page_after_input _ _ _ Heq), Hclear.
  assert (Hne1 : nonempty (images (ss (grown c added shown))) = true).
  { unfold grown. simpl. destruct (images (ss c)); [contradiction | reflexivity]. }
  rewrite Hne1. simpl andb. cbv iota.
  set (c1 := {| ss := with_images [] (ss (grown c added shown));
                world := world (grown c added shown);
                log := log (grown c added shown) |}).
  change ((Rerun, c1).2) with c1. change ((Rerun, c1).1) with (@Rerun unit).
  assert (Hpage1 : page (ss c1) = Upload_Images) by exact Hpage.
  rewrite (main_no_jump w' c1 Hside'), Hpage1.
  rewrite (upload_images_page_store w' c1 Hopt' Hclear').
  split; [reflexivity|]. split; [reflexivity|]. split; [reflexivity|].
  intros Hfiles. destruct (file_uploader w') as [|f rest]; [contradiction|].
  simpl. discriminate.
Qed.

End Runs.

(** ** The identify and recipe pages in closed form *)

Section PageEquations.
Context {B : Backend}.

Lemma identify_ingredients_page_eq (w : widgets) (c : ctx) :
  images (ss c) <> [] ->
  let c2 := edited_ctx w (identified_ctx w c) in
  identify_ingredients_page w c
  = if back_to_upload w then (Rerun, on_page Upload_Images c2)
    else if to_generate w
    then if nonempty (ingredients (ss c2))
         then (Rerun, on_page Generate_Recipe c2)
         else (Continue tt,
               showing (st_error "Please identify ingredients before proceeding.") c2)
    else (Continue tt, c2).
Proof.
  intros Hne c2. subst c2. unfold identify_ingredients_page.
  unfold bind at 1. unfold get_ss at 1.
  destruct (images (ss c)) as [|img imgs] eqn:Himgs; [contradiction|].
  change (negb (nonempty (img :: imgs))) with false. cbv iota.
  unfold bind at 1.
  assert (Hid : when (identify_button w)
                  (do identified_items <- identify_items (img :: imgs);
                   set_ingredients identified_items) c
                = (Continue tt, identified_ctx w c)).
  { unfold identified_ctx. destruct (identify_button w); [|reflexivity].
    unfold when, bind. rewrite identify_items_trace. rewrite Himgs. reflexivity. }
  rewrite Hid. clear Hid. generalize (identified_ctx w c). intros c1.
  unfold bind at 1. unfold bind at 1. unfold get_ss at 1.
  assert (Hed : when (nonempty (ingredients (ss c1)))
                  (set_ingredients
                     (edited_ingredients
                        (text_area w (join (String newline EmptyString)
                                           (ingredients (ss c1)))))) c1
                = (Continue tt, edited_ctx w c1)).
  { unfold edited_ctx. destruct (nonempty (ingredients (ss c1))); reflexivity. }
  rewrite Hed. clear Hed. generalize (edited_ctx w c1). intros c2.
  unfold bind, get_ss, when.
  destruct (back_to_upload w); [reflexivity|].
  destruct (to_generate w); [|reflexivity].
  simpl. destruct (nonempty (ingredients (ss c2))); reflexivity.
Qed.

Lemma identify_ingredients_page_empty (w : widgets) (c : ctx) :
  images (ss c) = [] ->
  identify_ingredients_page w c
  = (Return,
     showing (st_warning "Please upload images of your fridge contents first.") c).
Proof.
  intros Himgs. unfold identify_ingredients_page, bind, get_ss.
  rewrite Himgs. reflexivity.
Qed.

Lemma generate_recipe_page_eq (w : widgets) (c : ctx) :
  ingredients (ss c) <> [] ->
  let c2 := rendered_ctx (generated_ctx w c) in
  generate_recipe_page w c
  = if back_to_ingredients w then (Rerun, on_page Identify_Ingredients c2)
    else (Continue tt, c2).
Proof.
  intros Hne c2. subst c2. unfold generate_recipe_page.
  unfold bind at 1. unfold get_ss at 1.
  destruct (ingredients (ss c)) as [|x ings] eqn:Hings; [contradiction|].
  change (negb (nonempty (x :: ings))) with false. cbv iota zeta.
  unfold bind at 1.
  assert (Hgen : when (generate_button w)
                   (do recipes <- generate_multiple_recipes (x :: ings)
                                    (diet_selectbox w) (cuisine_selectbox w)
                                    (num_recipes_slider w);
                    set_recipes recipes) c
                 = (Continue tt, generated_ctx w c)).
  { unfold generated_ctx. destruct (generate_button w); [|reflexivity].
    unfold when, bind. rewrite generate_multiple_recipes_trace. rewrite Hings.
    reflexivity. }
  rewrite Hgen. clear Hgen. generalize (generated_ctx w c). intros c1.
  unfold bind at 1. unfold bind at 1. unfold get_ss at 1.
  assert (Hshow : when (nonempty (recipes (ss c1)))
                    (for_each (enumerate 1 (recipes (ss c1))) tt
                       (fun _ entry => show (recipe_container entry)) >>
                     show (st_markdown (get_pdf_download_link (recipes (ss c1))))) c1
                  = (Continue tt, rendered_ctx c1)).
  { unfold rendered_ctx. destruct (nonempty (recipes (ss c1))); [|reflexivity].
    unfold when, bind. rewrite for_each_show. unfold show. simpl.
    rewrite <- app_assoc. reflexivity. }
  rewrite Hshow. clear Hshow. generalize (rendered_ctx c1). intros c2.
  destruct (back_to_ingredients w); reflexivity.
Qed.

Lemma generate_recipe_page_empty (w : widgets) (c : ctx) :
  ingredients (ss c) = [] ->
  generate_recipe_page w c
  = (Return, showing (st_warning "Please identify ingredients first.") c).
Proof.
  intros Hings. unfold generate_recipe_page, bind, get_ss.
  rewrite Hings. reflexivity.
Qed.

End PageEquations.

(** ** Going forward, guards and clicks *)

Section Clicks.
Context {B : Backend}.

(** X6.  In a run with no jump by the sidebar: "Start" on the home page
    goes to the upload page; "Next" on the upload page, with a store
    that is not empty and nothing new in the widgets, goes to the
    identify page; both change the page only.  "Next" on the identify
    page is decided on the ingredients as the text area returns them in
    that run: they are stored, and the run goes to the recipe page when
    they are not empty and shows the validation error when the edit
    left none. *)
Theorem forward_with_data_accepted (w : widgets) (c : ctx) :
  sidebar_radio w = None ->
  (page (ss c) = Home -> start_button w = true ->
   main w c = (Rerun, on_page Upload_Images c))
  /\ (page (ss c) = Upload_Images -> images (ss c) <> [] ->
      nothing_new w (images (ss c)) -> clear_all_images w = false ->
      back_to_home w = false -> to_identify w = true ->
      exists shown,
        main w c = (Rerun, {| ss := with_page Identify_Ingredients (ss c);
                              world := world c; log := log c ++ shown |}))
  /\ (page (ss c) = Identify_Ingredients -> images (ss c) <> [] ->
      ingredients (ss c) <> [] -> identify_button w = false ->
      back_to_upload w = false -> to_generate w = true ->
      let edited :=
        edited_ingredients
          (text_area w (join (String newline EmptyString) (ingredients (ss c)))) in
      let c2 := {| ss := with_ingredients edited (ss c);
                   world := world c; log := log c |} in
      main w c
      = if nonempty edited then (Rerun, on_page Generate_Recipe c2)
        else (Continue tt,
              showing (st_error "Please identify ingredients before proceeding.") c2)).
Proof.
  intros Hside. rewrite (main_no_jump w c Hside). split; [|split].
  - intros -> Hstart. unfold home_page. rewrite Hstart. reflexivity.
  - intros -> Hne Hnew Hclear Hback Hnext.
    destruct (upload_images_input_nothing_new w c Hnew) as [shown Hinput].
    exists shown.
    rewrite (upload_images_page_after_input _ _ _ Hinput), Hclear, Hback, Hnext.
    rewrite andb_false_r. simpl.
    destruct (images (ss c)); [contradiction | reflexivity].
  - intros -> Himgs Hings Hid Hback Hnext edited c2.
    rewrite (identify_ingredients_page_eq w c Himgs). cbv zeta.
    rewrite Hback, Hnext. unfold identified_ctx. rewrite Hid.
    unfold edited_ctx.
    destruct (ingredients (ss c)) as [|x ings] eqn:Hx; [contradiction|].
    reflexivity.
Qed.

(** X7.  The identify page of a session with no image and the recipe
    page of a session with no ingredients, which the sidebar reaches
    without any check, show their warning and return: whatever is
    clicked or entered, the session and the world stay as they are, so
    the model is not called and no page is left. *)
Theorem page_without_data_only_warns (w : widgets) (c : ctx) :
  sidebar_radio w = None ->
  (page (ss c) = Identify_Ingredients -> images (ss c) = [] ->
   main w c
   = (Return,
      showing (st_warning "Please upload images of your fridge contents first.") c))
  /\ (page (ss c) = Generate_Recipe -> ingredients (ss c) = [] ->
      main w c
      = (Return, showing (st_warning "Please identify ingredients first.") c)).
Proof.
  intros Hside. rewrite (main_no_jump w c Hside). split.
  - intros -> Himgs. apply identify_ingredients_page_empty, Himgs.
  - intros -> Hings. apply generate_recipe_page_empty, Hings.
Qed.

Lemma all_failed_no_items (rs : list response) :
  Forall (fun r => failed r = true) rs -> flat_map items_of rs = [].
Proof.
  induction 1 as [|r rs Hr _ IH]; [reflexivity|].
  destruct r; [discriminate | exact IH].
Qed.

(** X8.  A click on "Identify Ingredients" replaces the ingredients of
    the session: after the run they are what the text area returns for
    the items just identified, whatever the session held before, and
    they are gone when no item was identified; in particular when every
    call of the model failed the session is left with no ingredients. *)
Theorem identify_click_replaces_ingredients (w : widgets) (c : ctx) :
  images (ss c) <> [] -> identify_button w = true ->
  let tr := vision_trace (images (ss c)) (world c) in
  let r := elements (list_to_set (flat_map items_of tr.1) : gset string) in
  ingredients (ss (identify_ingredients_page w c).2)
  = (if nonempty r
     then edited_ingredients (text_area w (join (String newline EmptyString) r))
     else [])
  /\ images (ss (identify_ingredients_page w c).2) = images (ss c)
  /\ recipes (ss (identify_ingredients_page w c).2) = recipes (ss c)
  /\ world (identify_ingredients_page w c).2 = tr.2
  /\ (Forall (fun x => failed x = true) tr.1 ->
      ingredients (ss (identify_ingredients_page w c).2) = []).
Proof.
  intros Himgs Hid tr r.
  assert (Heq : ingredients (ss (identify_ingredients_page w c).2)
                = (if nonempty r
                   then edited_ingredients
                          (text_area w (join (String newline EmptyString) r))
                   else [])
                /\ images (ss (identify_ingredients_page w c).2) = images (ss c)
                /\ recipes (ss (identify_ingredients_page w c).2) = recipes (ss c)
                /\ world (identify_ingredients_page w c).2 = tr.2).
  { rewrite (identify_ingredients_page_eq w c Himgs). cbv zeta.
    unfold identified_ctx. rewrite Hid. cbv zeta. fold tr. fold r.
    unfold edited_ctx. simpl ingredients.
    destruct r as [|x r'] eqn:Hr;
      destruct (back_to_upload w), (to_generate w); simpl;
      try match goal with
          | |- context [nonempty ?l] => destruct (nonempty l)
          end; auto. }
  destruct Heq as (Hing & Himg & Hrec & Hw).
  split; [exact Hing|]. split; [exact Himg|]. split; [exact Hrec|].
  split; [exact Hw|].
  intros Hfail. rewrite Hing. subst r.
  rewrite (all_failed_no_items _ Hfail). reflexivity.
Qed.

(** X9.  A response with no comma is taken whole: from a single image
    whose response holds no comma, [identify_items] returns the one
    item that is the trimmed response. *)
Theorem identify_items_without_comma (image : Image) (text : string) (c : ctx) :
  (vision_trace [image] (world c)).1 = [Text text] ->
  has_char comma text = false ->
  (identify_items [image] c).1 = Continue [strip text].
Proof.
  intros Htrace Hcomma. rewrite identify_items_trace, Htrace. simpl.
  rewrite split_no_sep by exact Hcomma. simpl.
  rewrite union_empty_r_L, elements_singleton. reflexivity.
Qed.

(** X10.  A click on "Generate Recipes" replaces the recipes of the
    session by those just generated, as many as the slider says, one
    call of the model each on the prompt of the session's ingredients
    and the chosen preferences; the store and the ingredients stay as
    they were. *)
Theorem generate_click_replaces_recipes (w : widgets) (c : ctx) :
  ingredients (ss c) <> [] -> generate_button w = true ->
  let tr := text_trace (recipe_prompt (ingredients (ss c))
                          (diet_selectbox w) (cuisine_selectbox w))
                       (num_recipes_slider w) (world c) in
  recipes (ss (generate_recipe_page w c).2) = map slot tr.1
  /\ length (recipes (ss (generate_recipe_page w c).2)) = num_recipes_slider w
  /\ images (ss (generate_recipe_page w c).2) = images (ss c)
  /\ ingredients (ss (generate_recipe_page w c).2) = ingredients (ss c)
  /\ world (generate_recipe_page w c).2 = tr.2.
Proof.
  intros Hings Hgen tr.
  rewrite (generate_recipe_page_eq w c Hings). cbv zeta.
  unfold generated_ctx. rewrite Hgen. cbv zeta. fold tr.
  unfold rendered_ctx. simpl recipes.
  assert (Hlen : length (map slot tr.1) = num_recipes_slider w)
    by (rewrite length_map; apply text_trace_length).
  destruct (nonempty (map slot tr.1)), (back_to_ingredients w); simpl; auto.
Qed.

End Clicks.

(** ** What a run leaves alone *)

Section Frames.
Context {B : Backend}.

(** The store, the ingredients, the recipes and the world after a run
    of a page, read off the closed forms of the pages. *)
Lemma home_page_data (w : widgets) (c : ctx) :
  images (ss (home_page w c).2) = images (ss c)
  /\ ingredients (ss (home_page w c).2) = ingredients (ss c)
  /\ recipes (ss (home_page w c).2) = recipes (ss c)
  /\ world (home_page w c).2 = world c.
Proof. unfold home_page. destruct (start_button w); simpl; auto. Qed.

Lemma upload_images_page_data (w : widgets) (c : ctx) :
  ingredients (ss (upload_images_page w c).2) = ingredients (ss c)
  /\ recipes (ss (upload_images_page w c).2) = recipes (ss c)
  /\ world (upload_images_page w c).2 = world c.
Proof.
  destruct (upload_images_input_grown w c) as (added & shown & Heq & _).
  rewrite (upload_images_page_after_input _ _ _ Heq).
  destruct (nonempty (images (ss (grown c added shown)))),
    (clear_all_images w), (back_to_home w), (to_identify w); simpl; auto.
Qed.

Lemma identify_ingredients_page_data (w : widgets) (c : ctx) :
  images (ss (identify_ingredients_page w c).2) = images (ss c)
  /\ recipes (ss (identify_ingredients_page w c).2) = recipes (ss c)
  /\ (identify_button w = false ->
      world (identify_ingredients_page w c).2 = world c).
Proof.
  destruct (images (ss c)) as [|img imgs] eqn:Himgs.
  - rewrite (identify_ingredients_page_empty w c Himgs). simpl. auto.
  - rewrite identify_ingredients_page_eq by (rewrite Himgs; discriminate).
    cbv zeta. unfold edited_ctx, identified_ctx.
    destruct (identify_button w); cbv zeta;
      repeat match goal with
             | |- context [nonempty ?l] => destruct (nonempty l)
             end;
      destruct (back_to_upload w), (to_generate w); simpl;
      repeat match goal with
             | |- context [nonempty ?l] => destruct (nonempty l)
             end;
      simpl; rewrite ?Himgs; repeat split; auto; discriminate.
Qed.

Lemma generate_recipe_page_data (w : widgets) (c : ctx) :
  images (ss (generate_recipe_page w c).2) = images (ss c)
  /\ ingredients (ss (generate_recipe_page w c).2) = ingredients (ss c)
  /\ (generate_button w = false ->
      recipes (ss (generate_recipe_page w c).2) = recipes (ss c)
      /\ world (generate_recipe_page w c).2 = world c).
Proof.
  destruct (ingredients (ss c)) as [|x ings] eqn:Hings.
  - rewrite (generate_recipe_page_empty w c Hings). simpl. auto.
  - rewrite generate_recipe_page_eq by (rewrite Hings; discriminate).
    cbv zeta. unfold rendered_ctx, generated_ctx.
    destruct (generate_button w); cbv zeta;
      repeat match goal with
             | |- context [nonempty ?l] => destruct (nonempty l)
             end;
      destruct (back_to_ingredients w); simpl; rewrite ?Hings;
      repeat split; auto; discriminate.
Qed.

(** X11.  A run of [main] changes the image store only on the upload
    page, the ingredients only on the identify page, and the recipes
    only by a click on "Generate Recipes" on the recipe page; going
    from page to page, by the buttons or by the sidebar, loses none of
    them. *)
Theorem data_changes_only_on_its_page (w : widgets) (c : ctx) :
  (page (ss c) <> Upload_Images -> images (ss (main w c).2) = images (ss c))
  /\ (page (ss c) <> Identify_Ingredients ->
      ingredients (ss (main w c).2) = ingredients (ss c))
  /\ ((page (ss c) = Generate_Recipe -> generate_button w = false) ->
      recipes (ss (main w c).2) = recipes (ss c)).
Proof.
  destruct (sidebar_radio w) as [p|] eqn:Hside.
  - destruct (decide (p = page (ss c))) as [Heq|Hne].
    + assert (Hmain : main w c
                = match page (ss c) with
                  | Home => home_page w c
                  | Upload_Images => upload_images_page w c
                  | Identify_Ingredients => identify_ingredients_page w c
                  | Generate_Recipe => generate_recipe_page w c
                  end).
      { unfold main. unfold bind at 1. unfold get_ss at 1. rewrite Hside. simpl.
        rewrite bool_decide_eq_true_2 by exact Heq.
        unfold bind, when, ret, get_ss. simpl.
        destruct (page (ss c)); reflexivity. }
      rewrite Hmain. clear Hmain Heq Hside.
      pose proof (home_page_data w c) as (H1 & H2 & H3 & _).
      pose proof (upload_images_page_data w c) as (U2 & U3 & _).
      pose proof (identify_ingredients_page_data w c) as (I1 & I3 & _).
      pose proof (generate_recipe_page_data w c) as (G1 & G2 & G3).
      destruct (page (ss c)); repeat split; intros; auto;
        try contradiction; try (apply G3; auto).
    + rewrite (main_jump w c p Hside Hne). simpl. auto.
  - rewrite (main_no_jump w c Hside).
    pose proof (home_page_data w c) as (H1 & H2 & H3 & _).
    pose proof (upload_images_page_data w c) as (U2 & U3 & _).
    pose proof (identify_ingredients_page_data w c) as (I1 & I3 & _).
    pose proof (generate_recipe_page_data w c) as (G1 & G2 & G3).
    destruct (page (ss c)); repeat split; intros; auto;
      try contradiction; try (apply G3; auto).
Qed.

End Frames.

Section Frames2.
Context {B : Backend}.

Lemma main_stay (w : widgets) (c : ctx) :
  default (page (ss c)) (sidebar_radio w) = page (ss c) ->
  main w c
  = match page (ss c) with
    | Home => home_page w c
    | Upload_Images => upload_images_page w c
    | Identify_Ingredients => identify_ingredients_page w c
    | Generate_Recipe => generate_recipe_page w c
    end.
Proof.
  intros Hsel. unfold main. unfold bind at 1. unfold get_ss at 1.
  cbv zeta. rewrite Hsel. rewrite bool_decide_eq_true_2 by reflexivity.
  unfold bind, when, ret, get_ss. simpl.
  destruct (page (ss c)); reflexivity.
Qed.

Lemma main_cases (w : widgets) (c : ctx) :
  main w c
  = match page (ss c) with
    | Home => home_page w c
    | Upload_Images => upload_images_page w c
    | Identify_Ingredients => identify_ingredients_page w c
    | Generate_Recipe => generate_recipe_page w c
    end
  \/ exists p, p <> page (ss c) /\ main w c = (Rerun, on_page p c).
Proof.
  destruct (sidebar_radio w) as [p|] eqn:Hside.
  - destruct (decide (p = page (ss c))) as [Heq|Hne].
    + left. apply main_stay. rewrite Hside. exact Heq.
    + right. exists p. split; [exact Hne|]. apply main_jump; assumption.
  - left. apply main_stay. rewrite Hside. reflexivity.
Qed.

(** X12.  A run of [main] calls the model only for a click on "Identify
    Ingredients" on the identify page or on "Generate Recipes" on the
    recipe page: in every other run the world is left as it was. *)
Theorem model_called_only_on_click (w : widgets) (c : ctx) :
  (page (ss c) = Identify_Ingredients -> identify_button w = false) ->
  (page (ss c) = Generate_Recipe -> generate_button w = false) ->
  world (main w c).2 = world c.
Proof.
  intros Hid Hgen.
  destruct (main_cases w c) as [-> | (p & _ & ->)]; [|reflexivity].
  pose proof (home_page_data w c) as (_ & _ & _ & H4).
  pose proof (upload_images_page_data w c) as (_ & _ & U4).
  pose proof (identify_ingredients_page_data w c) as (_ & _ & I4).
  pose proof (generate_recipe_page_data w c) as (_ & _ & G4).
  destruct (page (ss c)); auto. apply G4; auto.
Qed.

(** X13.  In every session, a run in which nothing is clicked, nothing
    new is in the widgets of the upload page and the text area returns
    the text it shows leaves the session and the world exactly as they
    were, and does not ask for a rerun: rerunning the script is
    harmless. *)
Theorem idle_run_changes_nothing (events : list widgets) (w0 : World)
    (w : widgets) (shown : list message) :
  let s := (run_session events w0).1 in
  let c := {| ss := s; world := (run_session events w0).2; log := shown |} in
  let lines := join (String newline EmptyString) (ingredients s) in
  no_click w ->
  nothing_new w (images s) ->
  text_area w lines = lines ->
  (main w c).1 <> Rerun
  /\ ss (main w c).2 = s
  /\ world (main w c).2 = world c.
Proof.
  intros s c lines (Hside & Hstart & Hclear & Hbh & Hti & Hid & Hbu & Htg & Hgen & Hbi)
    Hnew Hedit.
  assert (Hok : session_ok s) by apply run_session_ok.
  rewrite (main_no_jump w c Hside).
  destruct (page s) eqn:Hpage; change (page (ss c)) with (page s); rewrite Hpage.
  - unfold home_page. rewrite Hstart. simpl. auto.
  - destruct (upload_images_input_nothing_new w c Hnew) as [shown' Hinput].
    rewrite (upload_images_page_after_input _ _ _ Hinput), Hclear, Hbh, Hti.
    rewrite andb_false_r. simpl. auto.
  - destruct (images s) as [|img imgs] eqn:Himgs.
    + rewrite identify_ingredients_page_empty by exact Himgs. simpl. auto.
    + rewrite identify_ingredients_page_eq
        by (change (images (ss c)) with (images s); rewrite Himgs; discriminate).
      cbv zeta. rewrite Hbu, Htg. unfold identified_ctx. rewrite Hid.
      unfold edited_ctx. change (ingredients (ss c)) with (ingredients s).
      fold lines. rewrite Hedit. unfold lines.
      rewrite edited_ingredients_join by apply Hok.
      destruct (nonempty (ingredients s)); simpl;
        repeat split; try discriminate; try reflexivity.
      subst c. destruct s; reflexivity.
  - destruct (ingredients s) as [|x ings] eqn:Hings.
    + rewrite generate_recipe_page_empty by exact Hings. simpl. auto.
    + rewrite generate_recipe_page_eq
        by (change (ingredients (ss c)) with (ingredients s); rewrite Hings; discriminate).
      cbv zeta. rewrite Hbi. unfold generated_ctx. rewrite Hgen.
      unfold rendered_ctx.
      destruct (nonempty (recipes (ss c))); simpl;
        repeat split; try discriminate; reflexivity.
Qed.

(** X14.  In every session, after every run, each ingredient of the
    session is trimmed, not empty and on one line, so the text area is
    shown one ingredient per line and splitting what it shows gives the
    ingredients back. *)
Theorem session_ingredients_are_normal (events : list widgets) (w0 : World) :
  let l := ingredients (run_session events w0).1 in
  Forall normal_ingredient l
  /\ (l <> [] -> split newline (join (String newline EmptyString) l) = l)
  /\ edited_ingredients (join (String newline EmptyString) l) = l.
Proof.
  intros l. assert (Hl : Forall normal_ingredient l) by apply run_session_ok.
  split; [exact Hl|]. split.
  - intros Hne. apply split_join; [exact Hne|].
    eapply Forall_impl; [exact Hl|]. intros x (_ & _ & Hx). exact Hx.
  - apply edited_ingredients_join, Hl.
Qed.

End Frames2.

(** ** The steps of the wizard and the progress bar *)

Section Steps.
Context {B : Backend}.

(** X15.  Without a jump by the sidebar, a run moves the wizard by one
    page at most: the page after the run is the page before it, the
    next one or the previous one in the order Home, Upload Images,
    Identify Ingredients, Generate Recipe. *)
Theorem buttons_move_one_step (w : widgets) (c : ctx) :
  sidebar_radio w = None ->
  one_step (page (ss c)) (page (ss (main w c).2)).
Proof.
  intros Hside. rewrite (main_no_jump w c Hside).
  destruct (page (ss c)) eqn:Hpage.
  - unfold home_page. destruct (start_button w); simpl; rewrite ?Hpage;
      unfold one_step; simpl; auto.
  - destruct (upload_images_input_grown w c) as (added & shown & Heq & _).
    rewrite (upload_images_page_after_input _ _ _ Heq).
    destruct (nonempty (images (ss (grown c added shown)))),
      (clear_all_images w), (back_to_home w), (to_identify w);
      simpl; rewrite ?Hpage; unfold one_step; simpl; auto.
  - destruct (images (ss c)) as [|img imgs] eqn:Himgs.
    + rewrite identify_ingredients_page_empty by exact Himgs.
      simpl. rewrite Hpage. unfold one_step; simpl; auto.
    + rewrite identify_ingredients_page_eq by (rewrite Himgs; discriminate).
      cbv zeta.
      assert (Hp : page (ss (edited_ctx w (identified_ctx w c)))
                   = Identify_Ingredients).
      { unfold edited_ctx, identified_ctx.
        destruct (identify_button w); cbv zeta;
          match goal with
          | |- context [nonempty ?l] => destruct (nonempty l)
          end; simpl; exact Hpage. }
      destruct (back_to_upload w), (to_generate w),
        (nonempty (ingredients (ss (edited_ctx w (identified_ctx w c)))));
        simpl; rewrite ?Hp; unfold one_step; simpl; auto.
  - destruct (ingredients (ss c)) as [|x ings] eqn:Hings.
    + rewrite generate_recipe_page_empty by exact Hings.
      simpl. rewrite Hpage. unfold one_step; simpl; auto.
    + rewrite generate_recipe_page_eq by (rewrite Hings; discriminate).
      cbv zeta.
      assert (Hp : page (ss (rendered_ctx (generated_ctx w c))) = Generate_Recipe).
      { unfold rendered_ctx, generated_ctx.
        destruct (generate_button w); cbv zeta;
          match goal with
          | |- context [nonempty ?l] => destruct (nonempty l)
          end; simpl; exact Hpage. }
      destruct (back_to_ingredients w); simpl; rewrite ?Hp;
        unfold one_step; simpl; auto.
Qed.

(** X16.  [show_progress] never fails on the page of a session: the
    page is in [pages], the fraction it passes to the progress bar has
    a numerator that is at most its denominator, 3, and the text it
    writes is "Step k of 4" with k the rank of the page, from 1. *)
Theorem show_progress_in_range (s : session_state) :
  exists current_page_index,
    list_index (page s) pages = Some current_page_index
    /\ show_progress s
       = Some (current_page_index, 3,
               "Step " +:+ str_of_nat (current_page_index + 1) +:+ " of 4")
    /\ current_page_index <= 3
    /\ pages !! current_page_index = Some (page s).
Proof.
  unfold show_progress.
  destruct (page s); simpl;
    [exists 0 | exists 1 | exists 2 | exists 3];
    repeat split; try reflexivity; lia.
Qed.

End Steps.

(** ** The document and the prompt *)

Section Document.
Context {B : Backend}.

Lemma to_uint_nonnil (n : nat) : Nat.to_uint n <> Decimal.Nil.
Proof.
  rewrite <- (Unsigned.of_to n) at 1. rewrite Unsigned.to_of.
  apply unorm_nonnil.
Qed.

Lemma str_of_nat_inj (n m : nat) : str_of_nat n = str_of_nat m -> n = m.
Proof.
  unfold str_of_nat. intros H. apply Unsigned.to_uint_inj.
  assert (Some (Nat.to_uint n) = Some (Nat.to_uint m)) as [= ?]; [|assumption].
  rewrite <- !NilZero.usu by apply to_uint_nonnil. rewrite H. reflexivity.
Qed.

Lemma pdf_sections_texts (recipes : list string) (start : nat) :
  multi_cell_texts (flat_map pdf_section (enumerate start recipes)) = recipes
  /\ cell_texts (flat_map pdf_section (enumerate start recipes))
     = map (fun i => "Recipe " +:+ str_of_nat i) (seq start (length recipes))
  /\ length (flat_map pdf_section (enumerate start recipes)) = 3 * length recipes.
Proof.
  revert start. induction recipes as [|r recipes IH]; intros start.
  - simpl. auto.
  - destruct (IH (S start)) as (H1 & H2 & H3).
    unfold multi_cell_texts, cell_texts in *. simpl.
    rewrite H1, H2, H3. repeat split; try reflexivity. lia.
Qed.

Lemma append_inj_l (a x y : string) : a +:+ x = a +:+ y -> x = y.
Proof. induction a as [|ch a IH]; simpl; [trivial|]. intros [= H]. auto. Qed.

(** X17.  The document of [get_pdf_download_link] has three set-up
    calls and three calls per recipe.  Its [multi_cell] texts are the
    recipes, each once, in order and unchanged; its [cell] texts are
    the titles "Recipe 1" to "Recipe n" in order, no two of them the
    same.  With no recipe the document is the set-up alone. *)
Theorem export_holds_every_recipe_once (recipes : list string) :
  length (pdf_calls recipes) = 3 + 3 * length recipes
  /\ multi_cell_texts (pdf_calls recipes) = recipes
  /\ cell_texts (pdf_calls recipes)
     = map (fun i => "Recipe " +:+ str_of_nat i) (seq 1 (length recipes))
  /\ NoDup (cell_texts (pdf_calls recipes))
  /\ pdf_calls [] = [add_page; set_auto_page_break true 15; set_font "Arial" 12].
Proof.
  destruct (pdf_sections_texts recipes 1) as (H1 & H2 & H3).
  assert (Hcells : cell_texts (pdf_calls recipes)
                   = map (fun i => "Recipe " +:+ str_of_nat i)
                         (seq 1 (length recipes))) by exact H2.
  split; [unfold pdf_calls; rewrite length_app, H3; reflexivity|].
  split; [exact H1|]. split; [exact Hcells|]. split; [|reflexivity].
  rewrite Hcells. apply NoDup_fmap_2; [|apply NoDup_seq].
  intros i j Hij. apply str_of_nat_inj. exact (append_inj_l _ _ _ Hij).
Qed.

Lemma prefix_app_l (sub a t : string) :
  String.prefix sub a = true -> String.prefix sub (a +:+ t) = true.
Proof.
  revert a. induction sub as [|ch sub IH]; intros a; simpl.
  - intros _. destruct (a +:+ t); reflexivity.
  - destruct a as [|ch' a]; [discriminate|]. simpl.
    destruct (ascii_dec ch ch'); [apply IH | discriminate].
Qed.

Lemma contains_app_l (sub a t : string) :
  contains sub a = true -> contains sub (a +:+ t) = true.
Proof.
  induction a as [|ch a IH].
  - destruct sub; [intros _; destruct t; reflexivity | discriminate].
  - intros H. cbn [contains] in H. apply orb_true_iff in H as [H|H].
    + pose proof (prefix_app_l _ (String ch a) t H) as Hp.
      change (String ch a +:+ t) with (String ch (a +:+ t)) in *.
      cbn [contains]. rewrite Hp. reflexivity.
    + change (String ch a +:+ t) with (String ch (a +:+ t)).
      cbn [contains]. rewrite (IH H). apply orb_true_r.
Qed.

Lemma append_empty_r (a : string) : a +:+ EmptyString = a.
Proof.
  induction a as [|ch a IH]; [reflexivity|].
  change (String ch a +:+ EmptyString) with (String ch (a +:+ EmptyString)).
  f_equal. exact IH.
Qed.

Lemma contains_refl (x : string) : contains x x = true.
Proof. rewrite <- (append_empty_r x) at 2. apply contains_here. Qed.

Lemma contains_join (sep x : string) (items : list string) :
  x ∈ items -> contains x (join sep items) = true.
Proof.
  induction items as [|y items IH]; intros Hx; [inversion Hx|].
  apply elem_of_cons in Hx as [->|Hx].
  - destruct items as [|z items]; [apply contains_refl | apply contains_here].
  - destruct items as [|z items]; [inversion Hx|].
    change (join sep (y :: z :: items))
      with (y +:+ sep +:+ join sep (z :: items)).
    do 2 apply contains_app_r. apply IH, Hx.
Qed.

(** X18.  The prompt of [generate_recipe] holds every ingredient as it
    is; it holds the diet preference in lower case whenever that is not
    "None", and the cuisine preference as it is whenever that is not
    "Any". *)
Theorem recipe_prompt_mentions_choices (items : list string)
    (diet cuisine : string) :
  (forall x, x ∈ items -> contains x (recipe_prompt items diet cuisine) = true)
  /\ (diet <> "None" ->
      contains (lower diet) (recipe_prompt items diet cuisine) = true)
  /\ (cuisine <> "Any" ->
      contains cuisine (recipe_prompt items diet cuisine) = true).
Proof.
  unfold recipe_prompt. split; [|split].
  - intros x Hx. apply contains_app_r, contains_app_l, contains_join, Hx.
  - intros Hne. unfold diet_instruction.
    destruct (String.eqb_spec diet "None"); [contradiction|]. simpl negb. cbv iota.
    do 3 apply contains_app_r. apply contains_app_l.
    apply contains_app_r, contains_here.
  - intros Hne. unfold cuisine_instruction.
    destruct (String.eqb_spec cuisine "Any"); [contradiction|]. simpl negb. cbv iota.
    do 5 apply contains_app_r. apply contains_app_l.
    apply contains_app_r, contains_here.
Qed.

End Document.

(** ** The further properties on the demo *)

Section DemoFurther.

Example new_images_of_batch :
  new_images_of (B := demo) [2] [1; 11; 2; 3] = [1; 3].
Proof. reflexivity. Qed.

Lemma upload_page_only_appends_witness :
  exists added,
    images (ss (upload_images_page (B := demo)
                  (demo_event None None [1; 11; 2; 3] [To_identify] None)
                  (demo_at (demo_session Upload_Images [2] ["Milk"] []) [])).2)
    = [2] ++ added.
Proof.
  destruct (upload_page_only_appends (B := demo)
              (demo_event None None [1; 11; 2; 3] [To_identify] None)
              (demo_at (demo_session Upload_Images [2] ["Milk"] []) []) eq_refl)
    as (added & Himgs & _).
  exists added. exact Himgs.
Defined.

Lemma clear_all_images_keeps_ingredients_witness :
  ss (upload_images_page (B := demo)
        (demo_event None None [] [Clear_button; To_identify] None)
        (demo_at (demo_session Upload_Images [2] ["Milk"] ["Soup"]) [])).2
  = demo_session Upload_Images [] ["Milk"] ["Soup"].
Proof.
  apply (clear_all_images_keeps_ingredients (B := demo)
           (demo_event None None [] [Clear_button; To_identify] None)
           (demo_at (demo_session Upload_Images [2] ["Milk"] ["Soup"]) []));
    [reflexivity | discriminate].
Defined.

Lemma cleared_store_refills_from_uploader_witness :
  images (ss (main (B := demo) (demo_event None None [1] [] None)
                (main (B := demo) (demo_event None None [1] [Clear_button] None)
                   (demo_at (demo_session Upload_Images [1] [] []) [])).2).2)
  = [1].
Proof.
  apply (cleared_store_refills_from_uploader (B := demo)
           (demo_event None None [1] [Clear_button] None)
           (demo_event None None [1] [] None)
           (demo_at (demo_session Upload_Images [1] [] []) []));
    try reflexivity; discriminate.
Defined.

Lemma forward_with_data_accepted_witness :
  main (B := demo) (demo_event None None [] [Start_button] None) (demo_ctx [])
  = (Rerun, on_page Upload_Images (demo_ctx [])).
Proof.
  apply (proj1 (forward_with_data_accepted (B := demo)
                  (demo_event None None [] [Start_button] None) (demo_ctx [])
                  eq_refl)); reflexivity.
Defined.

Lemma page_without_data_only_warns_witness :
  main (B := demo) (demo_event None None [] [Generate_button] None)
       (demo_at (demo_session Generate_Recipe [] [] []) [Text "Soup"])
  = (Return,
     showing (st_warning "Please identify ingredients first.")
       (demo_at (demo_session Generate_Recipe [] [] []) [Text "Soup"])).
Proof.
  apply (proj2 (page_without_data_only_warns (B := demo)
                  (demo_event None None [] [Generate_button] None)
                  (demo_at (demo_session Generate_Recipe [] [] []) [Text "Soup"])
                  eq_refl)); reflexivity.
Defined.

Lemma identify_click_replaces_ingredients_witness :
  ingredients
    (ss (identify_ingredients_page (B := demo)
           (demo_event None None [] [Identify_button] None)
           (demo_at (demo_session Identify_Ingredients [1; 2] ["Milk"] [])
                    [Raises "timeout"; Raises "timeout"])).2)
  = [].
Proof.
  apply (identify_click_replaces_ingredients (B := demo)
           (demo_event None None [] [Identify_button] None)
           (demo_at (demo_session Identify_Ingredients [1; 2] ["Milk"] [])
                    [Raises "timeout"; Raises "timeout"]));
    [discriminate | reflexivity | repeat constructor].
Defined.

Lemma identify_items_without_comma_witness :
  (identify_items (B := demo) [1] (demo_ctx [Text " Milk and eggs "])).1
  = Continue ["Milk and eggs"].
Proof.
  apply (identify_items_without_comma (B := demo) 1 " Milk and eggs "
           (demo_ctx [Text " Milk and eggs "])); reflexivity.
Defined.

Lemma generate_click_replaces_recipes_witness :
  recipes
    (ss (generate_recipe_page (B := demo)
           (demo_event None None [] [Generate_button] None)
           (demo_at (demo_session Generate_Recipe [1] ["Milk"] ["Old"])
                    [Text "Soup"; Raises "quota"])).2)
  = ["Soup"; "Unable to generate recipe. Please try again."].
Proof.
  apply (proj1 (generate_click_replaces_recipes (B := demo)
                  (demo_event None None [] [Generate_button] None)
                  (demo_at (demo_session Generate_Recipe [1] ["Milk"] ["Old"])
                           [Text "Soup"; Raises "quota"])
                  ltac:(discriminate) eq_refl)).
Defined.

Lemma model_called_only_on_click_witness :
  world (main (B := demo)
           (demo_event None None [1] [Identify_button; Generate_button] None)
           (demo_at (demo_session Upload_Images [] [] []) [Text "Milk"])).2
  = [Text "Milk"].
Proof.
  apply (model_called_only_on_click (B := demo)
           (demo_event None None [1] [Identify_button; Generate_button] None)
           (demo_at (demo_session Upload_Images [] [] []) [Text "Milk"]));
    discriminate.
Defined.

Lemma idle_run_changes_nothing_witness :
  ss (main (B := demo) (demo_event None None [1] [] None)
        (@Build_ctx demo (run_session (B := demo) identified [Text "Milk, Eggs"]).1
                         (run_session (B := demo) identified [Text "Milk, Eggs"]).2
                         [])).2
  = (run_session (B := demo) identified [Text "Milk, Eggs"]).1.
Proof.
  apply (idle_run_changes_nothing (B := demo) identified [Text "Milk, Eggs"]
           (demo_event None None [1] [] None) []).
  - repeat split; reflexivity.
  - vm_compute. repeat constructor.
  - reflexivity.
Defined.

Lemma buttons_move_one_step_witness :
  one_step Home
    (page (ss (main (B := demo) (demo_event None None [] [Start_button] None)
                 (demo_ctx [])).2)).
Proof.
  apply (buttons_move_one_step (B := demo)
           (demo_event None None [] [Start_button] None) (demo_ctx [])).
  reflexivity.
Defined.

End DemoFurther.

(** ** The single-page variant *)

Section OpenAIVariant.
Context {B : Backend}.
Variable average_hash : Image -> string.

Lemma openai_is_duplicate_spec (new_image : Image) (existing_images : list Image) :
  OpenAI.is_duplicate average_hash new_image existing_images = true
  <-> exists img, img ∈ existing_images /\ average_hash img = average_hash new_image.
Proof.
  induction existing_images as [|img rest IH]; simpl.
  - split; [discriminate|]. intros (x & Hx & _). inversion Hx.
  - unfold OpenAI.image_hash.
    destruct (String.eqb_spec (average_hash img) (average_hash new_image)) as [Heq|Hne].
    + split; [|reflexivity]. intros _. exists img. split; [constructor | exact Heq].
    + rewrite IH. split.
      * intros (x & Hx & Hh). exists x. split; [constructor; exact Hx | exact Hh].
      * intros (x & Hx & Hh). inversion Hx; subst; [contradiction|]. eauto.
Qed.

Lemma openai_append_distinct (new_image : Image) (store : list Image) :
  NoDup (map average_hash store) ->
  OpenAI.is_duplicate average_hash new_image store = false ->
  NoDup (map average_hash (store ++ [new_image])).
Proof.
  intros Hstore Hdup. rewrite map_app. apply NoDup_app. split; [exact Hstore|].
  split; [|apply NoDup_singleton].
  intros h Hh Hin. apply list_elem_of_singleton in Hin as ->.
  apply list_elem_of_fmap in Hh as (img & Hh & Himg).
  assert (OpenAI.is_duplicate average_hash new_image store = true) as Htrue
    by (apply openai_is_duplicate_spec; eauto).
  congruence.
Qed.

Lemma openai_upload_loop_distinct (files store : list Image) (n d : nat) :
  NoDup (map average_hash store) ->
  NoDup (map average_hash (OpenAI.upload_loop average_hash files store n d).1.1).
Proof.
  revert store n d. induction files as [|f rest IH]; intros store n d Hstore; simpl.
  - exact Hstore.
  - destruct (OpenAI.is_duplicate average_hash f store) eqn:Hdup; simpl.
    + apply IH, Hstore.
    + apply IH, openai_append_distinct; assumption.
Qed.

Lemma openai_upload_loop_prefix (files store : list Image) (n d : nat) :
  store `prefix_of` (OpenAI.upload_loop average_hash files store n d).1.1.
Proof.
  revert store n d. induction files as [|f rest IH]; intros store n d; simpl.
  - reflexivity.
  - destruct (OpenAI.is_duplicate average_hash f store); simpl; [apply IH|].
    etrans; [|apply IH]. apply prefix_app_r. reflexivity.
Qed.

Lemma openai_add_images_distinct (wd : OpenAI.widgets) (store : list Image) :
  NoDup (map average_hash store) ->
  NoDup (map average_hash (OpenAI.add_images average_hash wd store).1)
  /\ store `prefix_of` (OpenAI.add_images average_hash wd store).1.
Proof.
  intros Hstore. unfold OpenAI.add_images.
  destruct (OpenAI.image_option wd).
  - destruct (OpenAI.file_uploader wd) as [|f rest] eqn:Hfiles;
      [simpl; split; [exact Hstore | reflexivity]|].
    pose proof (openai_upload_loop_distinct (f :: rest) store 0 0 Hstore) as Hd.
    pose proof (openai_upload_loop_prefix (f :: rest) store 0 0) as Hp.
    destruct (OpenAI.upload_loop average_hash (f :: rest) store 0 0) as [[store' n] d].
    simpl in *. split; assumption.
  - destruct (OpenAI.camera_input wd) as [new_image|];
      [|simpl; split; [exact Hstore | reflexivity]].
    destruct (OpenAI.is_duplicate average_hash new_image store) eqn:Hdup; simpl.
    + split; [exact Hstore | reflexivity].
    + split; [apply openai_append_distinct; assumption|].
      apply prefix_app_r. reflexivity.
Qed.

End OpenAIVariant.

Section OpenAIMain.
Context {B : Backend}.
Variable average_hash : Image -> string.

Lemma openai_right_column_state (wd : OpenAI.widgets) (s : OpenAI.session)
    (w : World) (sh : list message) :
  OpenAI.images (OpenAI.state (OpenAI.right_column wd s w sh)) = OpenAI.images s
  /\ OpenAI.ingredients (OpenAI.state (OpenAI.right_column wd s w sh))
     = option_map
         (fun l => edited_ingredients
                     (OpenAI.text_area wd (join (String newline EmptyString) l)))
         (OpenAI.ingredients s)
  /\ (OpenAI.ingredients s = None ->
      OpenAI.after (OpenAI.right_column wd s w sh) = w).
Proof.
  unfold OpenAI.right_column.
  destruct (OpenAI.ingredients s) as [l|] eqn:Hl.
  - cbv zeta. destruct (OpenAI.generate_button wd).
    + destruct (OpenAI.generate_recipe _ _ _ w) as [[recipe w'] errors].
      simpl. split; [reflexivity|]. split; [reflexivity | discriminate].
    + simpl. split; [reflexivity|]. split; [reflexivity | discriminate].
  - simpl. split; [reflexivity|]. split; [exact Hl | reflexivity].
Qed.

Lemma openai_main_images (wd : OpenAI.widgets) (s : OpenAI.session) (w : World) :
  let store := (OpenAI.add_images average_hash wd (OpenAI.images s)).1 in
  OpenAI.images (OpenAI.state (OpenAI.main average_hash wd s w))
  = if nonempty store && OpenAI.clear_all_images wd then [] else store.
Proof.
  unfold OpenAI.main.
  destruct (OpenAI.add_images average_hash wd (OpenAI.images s)) as [store sh].
  simpl. destruct store as [|img store]; simpl.
  - apply openai_right_column_state.
  - destruct (OpenAI.clear_all_images wd); [reflexivity|].
    destruct (OpenAI.identify_button wd).
    + destruct (OpenAI.identify_items (img :: store) w) as [[items w'] errors].
      apply openai_right_column_state.
    + apply openai_right_column_state.
Qed.

Lemma openai_main_distinct (wd : OpenAI.widgets) (s : OpenAI.session) (w : World) :
  NoDup (map average_hash (OpenAI.images s)) ->
  NoDup (map average_hash
           (OpenAI.images (OpenAI.state (OpenAI.main average_hash wd s w)))).
Proof.
  intros Hs. rewrite openai_main_images. cbv zeta.
  destruct (openai_add_images_distinct average_hash wd _ Hs) as [Hd _].
  destruct (nonempty _ && OpenAI.clear_all_images wd); [constructor | exact Hd].
Qed.

(** X20.  In the single-page variant too, in every session, no two
    images of the store have the same fingerprint; and a run in which
    "Clear All Images" is not clicked keeps every stored image in its
    place, adding images only at the end of the store. *)
Theorem openai_store_has_no_duplicates (events : list OpenAI.widgets) (w0 : World) :
  NoDup (map average_hash
           (OpenAI.images (OpenAI.run_session average_hash events w0).1))
  /\ (forall wd s w,
      OpenAI.clear_all_images wd = false ->
      OpenAI.images s
      `prefix_of` OpenAI.images (OpenAI.state (OpenAI.main average_hash wd s w))).
Proof.
  split.
  - unfold OpenAI.run_session.
    induction events as [|wd events IH] using rev_ind; simpl; [constructor|].
    rewrite foldl_app. simpl. apply openai_main_distinct, IH.
  - intros wd s w Hclear. rewrite openai_main_images. cbv zeta.
    rewrite Hclear, andb_false_r.
    destruct (list_eq_nil_dec (OpenAI.images s)) as [Hnil|Hne].
    + rewrite Hnil. apply prefix_nil.
    + assert (Hd : OpenAI.images s
                   `prefix_of` (OpenAI.add_images average_hash wd (OpenAI.images s)).1).
      { unfold OpenAI.add_images.
        destruct (OpenAI.image_option wd).
        - destruct (OpenAI.file_uploader wd) as [|f rest]; [reflexivity|].
          pose proof (openai_upload_loop_prefix average_hash (f :: rest)
                        (OpenAI.images s) 0 0) as Hp.
          destruct (OpenAI.upload_loop average_hash (f :: rest) (OpenAI.images s) 0 0)
            as [[store' n] d]. exact Hp.
        - destruct (OpenAI.camera_input wd) as [new_image|]; [|reflexivity].
          destruct (OpenAI.is_duplicate average_hash new_image (OpenAI.images s));
            simpl; [reflexivity|]. apply prefix_app_r. reflexivity. }
      exact Hd.
Qed.

Lemma openai_main_ingredients (wd : OpenAI.widgets) (s : OpenAI.session) (w : World) :
  (exists l, OpenAI.ingredients (OpenAI.state (OpenAI.main average_hash wd s w))
             = Some (edited_ingredients l))
  \/ OpenAI.ingredients (OpenAI.state (OpenAI.main average_hash wd s w))
     = OpenAI.ingredients s.
Proof.
  unfold OpenAI.main.
  destruct (OpenAI.add_images average_hash wd (OpenAI.images s)) as [store sh].
  assert (Hcol : forall s1 w1 sh1,
            (exists l, OpenAI.ingredients (OpenAI.state (OpenAI.right_column wd s1 w1 sh1))
                       = Some (edited_ingredients l))
            \/ OpenAI.ingredients (OpenAI.state (OpenAI.right_column wd s1 w1 sh1)) = None).
  { intros s1 w1 sh1.
    destruct (openai_right_column_state wd s1 w1 sh1) as (_ & Hing & _).
    rewrite Hing. destruct (OpenAI.ingredients s1); simpl; eauto. }
  assert (Hkeep : forall s1 w1 sh1,
            OpenAI.ingredients s1 = OpenAI.ingredients s ->
            (exists l, OpenAI.ingredients (OpenAI.state (OpenAI.right_column wd s1 w1 sh1))
                       = Some (edited_ingredients l))
            \/ OpenAI.ingredients (OpenAI.state (OpenAI.right_column wd s1 w1 sh1))
               = OpenAI.ingredients s).
  { intros s1 w1 sh1 Hs1.
    destruct (openai_right_column_state wd s1 w1 sh1) as (_ & Hing & _).
    rewrite Hing, Hs1. destruct (OpenAI.ingredients s); simpl; eauto. }
  destruct store as [|img store]; [apply Hkeep; reflexivity|].
  destruct (OpenAI.clear_all_images wd); [right; reflexivity|].
  destruct (OpenAI.identify_button wd); [|apply Hkeep; reflexivity].
  destruct (OpenAI.identify_items (img :: store) w) as [[items w'] errors].
  destruct (openai_right_column_state wd
              {| OpenAI.images := img :: store; OpenAI.ingredients := Some items |}
              w' (sh ++ errors)) as (_ & Hing & _).
  left. rewrite Hing. simpl. eauto.
Qed.

(** X21.  In the single-page variant the key [ingredients] is absent
    until "Identify Ingredients" is clicked: while it is absent a run
    without that click leaves it absent and does not call the model,
    whatever else is clicked.  Once present it stays present, and in
    every session its ingredients are trimmed, not empty and on one
    line. *)
Theorem openai_ingredients_key (events : list OpenAI.widgets) (w0 : World) :
  match OpenAI.ingredients (OpenAI.run_session average_hash events w0).1 with
  | Some l => Forall normal_ingredient l
  | None => True
  end
  /\ (forall wd s w,
      is_Some (OpenAI.ingredients s) ->
      is_Some (OpenAI.ingredients (OpenAI.state (OpenAI.main average_hash wd s w))))
  /\ (forall wd s w,
      OpenAI.ingredients s = None -> OpenAI.identify_button wd = false ->
      OpenAI.ingredients (OpenAI.state (OpenAI.main average_hash wd s w)) = None
      /\ OpenAI.after (OpenAI.main average_hash wd s w) = w).
Proof.
  split; [|split].
  - unfold OpenAI.run_session.
    induction events as [|wd events IH] using rev_ind; simpl; [exact I|].
    rewrite foldl_app. simpl.
    match goal with
    | |- context [OpenAI.main average_hash wd ?s ?w] =>
        destruct (openai_main_ingredients wd s w) as [[l ->] | ->];
          [apply edited_ingredients_normal | exact IH]
    end.
  - intros wd s w [l Hl].
    destruct (openai_main_ingredients wd s w) as [[l' ->] | ->]; [eauto|].
    rewrite Hl. eauto.
  - intros wd s w Hnone Hid. unfold OpenAI.main.
    destruct (OpenAI.add_images average_hash wd (OpenAI.images s)) as [store sh].
    rewrite Hid.
    assert (Hcol : forall l sh1,
              OpenAI.ingredients
                (OpenAI.state (OpenAI.right_column wd
                   {| OpenAI.images := l; OpenAI.ingredients := OpenAI.ingredients s |}
                   w sh1)) = None
              /\ OpenAI.after (OpenAI.right_column wd
                   {| OpenAI.images := l; OpenAI.ingredients := OpenAI.ingredients s |}
                   w sh1) = w).
    { intros l sh1. unfold OpenAI.right_column. simpl. rewrite Hnone. simpl. auto. }
    destruct store as [|img store]; [apply Hcol|].
    destruct (OpenAI.clear_all_images wd); [simpl; auto | apply Hcol].
Qed.

(** X22.  In the single-page variant "Generate Recipe" has no guard:
    once the key [ingredients] is present, a click sends the model the
    prompt of the ingredients the text area returns in that run, even
    when there are none, and shows the text of the response, or the
    failure marker after a diagnostic.  The ingredients are stored as
    edited. *)
Theorem openai_generate_has_no_guard (wd : OpenAI.widgets) (s : OpenAI.session)
    (w : World) (l : list string) :
  OpenAI.ingredients s = Some l ->
  OpenAI.clear_all_images wd = false ->
  OpenAI.identify_button wd = false ->
  OpenAI.generate_button wd = true ->
  let l' := edited_ingredients
              (OpenAI.text_area wd (join (String newline EmptyString) l)) in
  let call := generate_content
                (TextPrompt (recipe_prompt l' (OpenAI.diet_selectbox wd)
                               (OpenAI.cuisine_selectbox wd))) w in
  let o := OpenAI.main average_hash wd s w in
  OpenAI.ingredients (OpenAI.state o) = Some l'
  /\ OpenAI.after o = call.2
  /\ OpenAI.rerun o = false
  /\ exists before,
       OpenAI.shown o
       = before ++ diagnostics generate_prefix [call.1] ++ [st_markdown (slot call.1)].
Proof.
  intros Hl Hclear Hid Hgen l' call o. subst o. unfold OpenAI.main.
  destruct (OpenAI.add_images average_hash wd (OpenAI.images s)) as [store sh].
  rewrite Hclear, Hid.
  assert (Hcol : forall imgs,
      let o := OpenAI.right_column wd
                 {| OpenAI.images := imgs; OpenAI.ingredients := OpenAI.ingredients s |}
                 w sh in
      OpenAI.ingredients (OpenAI.state o) = Some l'
      /\ OpenAI.after o = call.2
      /\ OpenAI.rerun o = false
      /\ exists before,
           OpenAI.shown o
           = before ++ diagnostics generate_prefix [call.1] ++ [st_markdown (slot call.1)]).
  { intros imgs. cbv zeta. unfold OpenAI.right_column. simpl. rewrite Hl, Hgen.
    cbv zeta. fold (edited_ingredients
                      (OpenAI.text_area wd (join (String newline EmptyString) l))).
    fold l'. unfold OpenAI.generate_recipe.
    change (generate_content (TextPrompt _) w) with call.
    destruct call as [[text|e] w']; simpl;
      repeat split; exists sh; reflexivity. }
  destruct store as [|img store]; apply Hcol.
Qed.

End OpenAIMain.

Section DemoVariant.

Example openai_same_picture_again :
  OpenAI.images
    (OpenAI.run_session (B := demo) demo_average_hash
       [demo_openai_event None [1; 11; 2] false false false;
        demo_openai_event (Some 21) [] false false false] []).1
  = [1; 2].
Proof. vm_compute. reflexivity. Qed.

Lemma openai_generate_has_no_guard_witness :
  OpenAI.after
    (OpenAI.main (B := demo) demo_average_hash
       (demo_openai_event None [] false false true)
       (@OpenAI.Build_session demo [] (Some []))
       [Raises "quota"; Text "Soup"])
  = [Text "Soup"].
Proof.
  apply (proj1 (proj2 (openai_generate_has_no_guard (B := demo) demo_average_hash
                         (demo_openai_event None [] false false true)
                         (@OpenAI.Build_session demo [] (Some []))
                         [Raises "quota"; Text "Soup"] []
                         eq_refl eq_refl eq_refl eq_refl))).
Defined.

End DemoVariant.

(** ** The prompt that is sent *)

Section Prompt.
Context {B : Backend}.

Lemma split_space_first (s : string) :
  split comma (String " " s)
  = match split comma s with
    | [] => [String " " EmptyString]
    | seg :: segs => String " " seg :: segs
    end.
Proof. reflexivity. Qed.

(** Split on its commas, the comma-joined list gives back the items in
    order, each after the first behind one space. *)
Lemma split_comma_join (x : string) (rest : list string) :
  Forall (fun item => has_char comma item = false) (x :: rest) ->
  split comma (join ", " (x :: rest)) = x :: map (fun item => " " +:+ item) rest.
Proof.
  revert x. induction rest as [|y rest IH]; intros x Hall.
  - inversion Hall; subst. simpl. apply split_no_sep. assumption.
  - inversion Hall as [|? ? Hx Hrest]; subst.
    change (join ", " (x :: y :: rest))
      with (x +:+ String comma (String " " (join ", " (y :: rest)))).
    rewrite split_app_sep by exact Hx.
    rewrite split_space_first, (IH y Hrest). reflexivity.
Qed.

Lemma generate_recipe_requests (items : list string) (diet cuisine : string)
    (cr : @ctx (recording B)) :
  requests (generate_recipe (B := recording B) items diet cuisine cr).2
  = requests cr ++ [TextPrompt (recipe_prompt items diet cuisine)].
Proof.
  rewrite generate_recipe_eq. unfold requests.
  destruct cr as [s [w l] lg]. simpl.
  destruct (@generate_content B (TextPrompt (recipe_prompt items diet cuisine)) w).
  reflexivity.
Qed.

(** C7.  The prompt of [generate_recipe] is the fixed opening, the
    ingredients joined by a comma and a space in their order, a full
    stop, the diet clause, the cuisine clause and the fixed closing.
    The joined list is empty for no ingredient, the ingredient itself
    for one, and otherwise the first ingredient, a comma, a space and
    the joined rest; split on its commas it gives the ingredients back
    in order, and each of them is in the prompt.  The diet clause is
    there, with the preference in lower case, iff the preference is not
    the default (the option "None"); the cuisine clause iff the
    preference is not the default (the option "Any").  For every
    ingredient list and preference pair the request [generate_recipe]
    sends is that prompt, and [generate_multiple_recipes] sends it once
    per recipe; with "Vegan" and "Italian" it contains "vegan" and
    "Italian". *)
Theorem recipe_prompt_clauses (items : list string) (diet cuisine : string) :
  recipe_prompt items diet cuisine
  = "Create a recipe using these ingredients: " +:+ join ", " items +:+ ". "
    +:+ diet_instruction diet +:+ " " +:+ cuisine_instruction cuisine
    +:+ " Provide the recipe name, ingredients with quantities, and step-by-step instructions."
  /\ join ", " [] = EmptyString
  /\ (forall x, join ", " [x] = x)
  /\ (forall x y rest,
      join ", " (x :: y :: rest) = x +:+ ", " +:+ join ", " (y :: rest))
  /\ (forall x rest,
      Forall (fun item => has_char comma item = false) (x :: rest) ->
      split comma (join ", " (x :: rest)) = x :: map (fun item => " " +:+ item) rest)
  /\ (forall x, x ∈ items -> contains x (recipe_prompt items diet cuisine) = true)
  /\ (diet_instruction diet = EmptyString <-> diet = "None")
  /\ (diet <> "None" ->
      diet_instruction diet = "The recipe should be " +:+ lower diet +:+ ".")
  /\ (cuisine_instruction cuisine = EmptyString <-> cuisine = "Any")
  /\ (cuisine <> "Any" ->
      cuisine_instruction cuisine = "The recipe should be " +:+ cuisine +:+ " cuisine.")
  /\ (forall cr : @ctx (recording B),
      requests (generate_recipe (B := recording B) items diet cuisine cr).2
      = requests cr ++ [TextPrompt (recipe_prompt items diet cuisine)])
  /\ (forall (n : nat) (cr : @ctx (recording B)),
      requests (generate_multiple_recipes (B := recording B) items diet cuisine n cr).2
      = requests cr ++ replicate n (TextPrompt (recipe_prompt items diet cuisine)))
  /\ recipe_prompt ["Milk"; "Eggs"] "Keto" "Mexican"
     = "Create a recipe using these ingredients: Milk, Eggs. The recipe should be keto. The recipe should be Mexican cuisine. Provide the recipe name, ingredients with quantities, and step-by-step instructions."
  /\ recipe_prompt ["Milk"] "None" "Any"
     = "Create a recipe using these ingredients: Milk.   Provide the recipe name, ingredients with quantities, and step-by-step instructions."
  /\ contains "vegan" (recipe_prompt items "Vegan" "Italian") = true
  /\ contains "Italian" (recipe_prompt items "Vegan" "Italian") = true
  /\ (forall (n : nat) (cr : @ctx (recording B)) (request : content),
      request ∈ drop (length (requests cr))
                 (requests (generate_multiple_recipes (B := recording B)
                              items "Vegan" "Italian" n cr).2) ->
      exists prompt, request = TextPrompt prompt
                     /\ contains "vegan" prompt = true
                     /\ contains "Italian" prompt = true).
Proof.
  assert (Hvegan : contains "vegan" (recipe_prompt items "Vegan" "Italian") = true).
  { unfold recipe_prompt. do 2 apply contains_app_r. reflexivity. }
  assert (Hitalian : contains "Italian" (recipe_prompt items "Vegan" "Italian") = true).
  { unfold recipe_prompt. do 2 apply contains_app_r. reflexivity. }
  split; [reflexivity|]. split; [reflexivity|]. split; [reflexivity|].
  split; [reflexivity|]. split; [apply split_comma_join|].
  split.
  { intros x Hx. unfold recipe_prompt.
    apply contains_app_r, contains_app_l, contains_join, Hx. }
  split; [apply diet_instruction_empty|].
  split.
  { intros Hne. unfold diet_instruction.
    destruct (String.eqb_spec diet "None"); [contradiction | reflexivity]. }
  split; [apply cuisine_instruction_empty|].
  split.
  { intros Hne. unfold cuisine_instruction.
    destruct (String.eqb_spec cuisine "Any"); [contradiction | reflexivity]. }
  split; [apply generate_recipe_requests|].
  split; [intros n cr; apply generate_multiple_recipes_requests|].
  split; [reflexivity|]. split; [reflexivity|].
  split; [exact Hvegan|]. split; [exact Hitalian|].
  intros n cr request Hin.
  rewrite generate_multiple_recipes_requests, drop_app_length in Hin.
  apply elem_of_replicate in Hin as [-> _]. eauto.
Qed.

End Prompt.

(** ** The export of recipes as the model wrote them *)

Section UnicodeExport.
Context {B : Backend}.


Lemma encode_decode_latin1 (r : string) :
  Unicode.encode_latin1 (Unicode.decode_latin1 r) = Some r.
Proof.
  unfold Unicode.encode_latin1, Unicode.decode_latin1.
  assert (Hlatin : Unicode.is_latin1 (map N_of_ascii (list_ascii_of_string r)) = true).
  { unfold Unicode.is_latin1. induction r as [|ch r IH]; [reflexivity|].
    simpl. rewrite IH, andb_true_r. apply N.ltb_lt, N_ascii_bounded. }
  rewrite Hlatin. f_equal.
  induction r as [|ch r IH]; [reflexivity|].
  simpl in *. rewrite ascii_N_embedding. f_equal. apply IH.
  apply andb_true_iff in Hlatin as [_ Hr]. exact Hr.
Qed.



End UnicodeExport.

(** ** The upload loop with an encoder that can refuse *)

Section PilUpload.
Context {B : Backend}.
Variable save_jpeg : Image -> option string.






End PilUpload.

Section PilTotal.
Context {B : Backend}.

(** With an encoder that accepts every image, the loop is the one of
    [upload_images_input]. *)
Lemma pil_is_duplicate_total (new_image : Image) (store : list Image) :
  Pil.is_duplicate (fun image => Some (jpeg_bytes image)) new_image store
  = Some (is_duplicate new_image store).
Proof.
  unfold Pil.is_duplicate, Pil.image_hash, Pil.image_to_bytes. simpl.
  induction store as [|img store IH]; simpl; [reflexivity|].
  unfold Pil.image_hash, Pil.image_to_bytes. simpl.
  change (md5_hexdigest (jpeg_bytes img)) with (image_hash img).
  change (md5_hexdigest (jpeg_bytes new_image)) with (image_hash new_image).
  destruct (String.eqb (image_hash img) (image_hash new_image)); [reflexivity|].
  exact IH.
Qed.

Lemma pil_upload_loop_total (files store : list Image) (n d : nat) :
  let added := new_images_of store files in
  Pil.upload_loop (fun image => Some (jpeg_bytes image)) files store n d
  = {| Pil.store_after := store ++ added;
       Pil.new_images := n + length added;
       Pil.duplicates := d + (length files - length added);
       Pil.raised := false |}.
Proof.
  revert store n d. induction files as [|f rest IH]; intros store n d; simpl.
  - rewrite app_nil_r, !Nat.add_0_r. reflexivity.
  - rewrite pil_is_duplicate_total.
    destruct (is_duplicate f store) eqn:Hdup.
    + rewrite IH. cbv zeta.
      pose proof (sublist_length _ _ (new_images_of_sublist store rest)).
      f_equal; lia.
    + rewrite IH. cbv zeta. rewrite <- app_assoc. simpl.
      f_equal; lia.
Qed.

End PilTotal.

Section DemoRevised.

Example its_recipe_is_not_latin1 : Unicode.encode_latin1 its_recipe = None.
Proof. reflexivity. Qed.

Example latin1_round_trip :
  Unicode.encode_latin1 (Unicode.decode_latin1 "Soup") = Some "Soup".
Proof. reflexivity. Qed.



Example upload_loop_cut_short :
  Pil.upload_loop (B := demo) demo_save_jpeg [1; 11; 2; 3; 100; 4] [2] 0 0
  = @Pil.Build_upload_result demo [2; 1; 3] 2 2 true.
Proof. reflexivity. Qed.


End DemoRevised.
